(** * WarehouseManager: the inventory / stock-ledger data layer

    A shallow embedding of [DatabaseService] (services/database.ts): the
    two SQLite tables, the statements the service issues against them,
    and every public method of the service, followed by the properties
    of the data layer.

    Modelling conventions.
    - A JavaScript number that holds a quantity, a row id or a limit
      is the integer it denotes ([Z]); NaN, the infinities and
      fractions are outside the model.  Its arithmetic is that of
      IEEE 754 doubles: a sum or difference is the exact result
      rounded to the nearest double, ties to even ([Double.round]),
      so it is exact up to 2^53 in magnitude and rounded beyond.
      Nothing in the service restricts the sign of a quantity.
    - A number bound to an INTEGER column is stored as a 64-bit
      INTEGER when it lies strictly between the int64 bounds, as a
      REAL otherwise.  [SUM] follows SQLite's aggregate (func.c of
      release 3.40): 64-bit integer accumulation in scan order that
      raises 'integer overflow', or a double accumulation once a REAL
      is met.  An INTEGER result reaches JavaScript as a double.
    - A table is the list of its rows in rowid order together with the
      [sqlite_sequence] counter that AUTOINCREMENT maintains.
    - [ORDER BY ... DESC] is a stable sort of the scanned rows under the
      BINARY collation (byte-wise comparison of the text).
    - Foreign keys are declared but not enforced (SQLite's default; the
      service never issues [PRAGMA foreign_keys = ON]).
    - An [async] method is a computation [M A]: it takes the state of
      the world and returns either a value or a thrown error, together
      with the state it leaves behind.  State written before a [throw]
      stays written. *)

From Stdlib Require Import ZArith List String Ascii Bool Lia.
From Stdlib Require Import Permutation Sorted.
Import ListNotations.
Local Open Scope string_scope.
Local Open Scope list_scope.
Local Open Scope Z_scope.

(** ** IEEE 754 doubles that hold integers *)

Module Double.

(** The nearest double to the integer [x], ties to even.  Integers up
    to 2^53 in magnitude are doubles; beyond, a double is a multiple
    of the power of two that leaves 53 significant bits.  (From
    2^1024 on, where a double is an infinity, the model keeps the
    integer.) *)
Definition round (x : Z) : Z :=
  let m := Z.abs x in
  let e := Z.log2 m in
  if e <? 53 then x
  else
    let ulp := 2 ^ (e - 52) in
    let q := m / ulp in
    let r := m mod ulp in
    let up := (ulp <? 2 * r) || ((2 * r =? ulp) && Z.odd q) in
    Z.sgn x * ((if up then q + 1 else q) * ulp).

Arguments round : simpl never.

End Double.

(** ** JavaScript operators used by the service *)

Module JS.

(** [Number.MAX_SAFE_INTEGER], 2^53 - 1. *)
Definition MAX_SAFE_INTEGER : Z := 9007199254740991.

(** [Number.isSafeInteger(x)] on an integer. *)
Definition safe (x : Z) : bool :=
  (- MAX_SAFE_INTEGER <=? x) && (x <=? MAX_SAFE_INTEGER).

(** [a + b] and [a - b] on numbers. *)
Definition add (a b : Z) : Z := Double.round (a + b).

Definition sub (a b : Z) : Z := Double.round (a - b).

Arguments add : simpl never.
Arguments sub : simpl never.

(** [x || d] on a number: [0] is falsy. *)
Definition or_num (x d : Z) : Z := if x =? 0 then d else x.

(** [s || d] on a string: the empty string is falsy. *)
Definition or_str (s d : string) : string :=
  if String.eqb s "" then d else s.

(** [!b] *)
Definition not (b : bool) : bool := if b then false else true.

(** [Math.max(a, b)]. *)
Definition Math_max (a b : Z) : Z := Z.max a b.

End JS.

(** ** Data model *)

(** [type: 'in' | 'out'] *)
Inductive MovementType : Type := type_in | type_out.

Definition MovementType_eqb (a b : MovementType) : bool :=
  match a, b with
  | type_in, type_in | type_out, type_out => true
  | _, _ => false
  end.

(** Rows as the queries return them.  [id] is the rowid; the methods
    that take an [Omit<_, 'id'>] argument never read it. *)

Module Item.
Record t : Type := mk {
  id : Z;
  name : string;
  sku : string;
  quantity : Z;
  location : string;
  description : string;
  created_at : string
}.

Definition set_quantity (q : Z) (i : t) : t :=
  mk (id i) (name i) (sku i) q (location i) (description i) (created_at i).
End Item.

Module StockLog.
Record t : Type := mk {
  id : Z;
  item_id : Z;
  type : MovementType;
  quantity : Z;
  note : string;
  timestamp : string;
  item_name : option string  (* only present in joined queries *)
}.

Definition set_item_name (n : option string) (l : t) : t :=
  mk (id l) (item_id l) (type l) (quantity l) (note l) (timestamp l) n.
End StockLog.

Record DashboardStats : Type := mkDashboardStats {
  totalItems : Z;
  totalQuantity : Z;
  recentLogs : list StockLog.t
}.

(** ** The embedded store *)

Module SQLite.

(** A table with an [INTEGER PRIMARY KEY AUTOINCREMENT] column. *)
Record Table (R : Type) : Type := mkTable {
  rows : list R;   (* in rowid order *)
  seq : Z          (* sqlite_sequence: largest rowid ever handed out *)
}.
Arguments mkTable {R} _ _.
Arguments rows {R} _.
Arguments seq {R} _.

Definition empty_table {R : Type} : Table R := mkTable [] 0.

(** The rowid AUTOINCREMENT gives the next inserted row: one more than
    the largest rowid that is or ever was in the table. *)
Definition next_rowid {R : Type} (rowid : R -> Z) (t : Table R) : Z :=
  fold_right Z.max (seq t) (map rowid (rows t)) + 1.

(** Contents of the database file; a table is absent until created. *)
Record Database : Type := mkDatabase {
  items : option (Table Item.t);
  stock_logs : option (Table StockLog.t)
}.

(** An open connection ([SQLite.SQLiteDatabase]) to that one file. *)
Inductive SQLiteDatabase : Type := Connection.

(** [ORDER BY key DESC]: stable insertion into a descending list. *)
Section OrderBy.
Context {R : Type} (key : R -> string).

Fixpoint insert_desc (x : R) (l : list R) : list R :=
  match l with
  | [] => [x]
  | y :: l' =>
      if String.ltb (key x) (key y) then y :: insert_desc x l'
      else x :: y :: l'
  end.

Definition order_by_desc (l : list R) : list R :=
  fold_right insert_desc [] l.

(** [x] may stand before [y] in a descending result. *)
Definition not_before (x y : R) : Prop :=
  String.leb (key y) (key x) = true.
End OrderBy.

(** [LIMIT n]: a negative limit means no limit. *)
Definition limit_rows {R : Type} (n : Z) (l : list R) : list R :=
  if n <? 0 then l else firstn (Z.to_nat n) l.

(** [stock_logs sl JOIN items i ON sl.item_id = i.id], selecting
    [sl.*, i.name AS item_name]. *)
Definition join_item_name (its : list Item.t) (sl : StockLog.t)
  : list StockLog.t :=
  map (fun i => StockLog.set_item_name (Some (Item.name i)) sl)
      (filter (fun i => StockLog.item_id sl =? Item.id i) its).

Definition join_logs_items (logs : list StockLog.t) (its : list Item.t)
  : list StockLog.t :=
  flat_map (join_item_name its) logs.

(** The value of a numeric expression. *)
Inductive Value : Type :=
| NULL
| INTEGER (v : Z)
| REAL (v : Z).

Definition MIN_INT64 : Z := -9223372036854775808.

Definition MAX_INT64 : Z := 9223372036854775807.

Definition is_int64 (v : Z) : bool := (MIN_INT64 <=? v) && (v <=? MAX_INT64).

(** Storage class of a number bound to a column of INTEGER affinity:
    INTEGER when it lies strictly between the int64 bounds, REAL
    otherwise. *)
Definition stored_as_INTEGER (v : Z) : bool :=
  (MIN_INT64 <? v) && (v <? MAX_INT64).

(** The accumulator of [SUM]. *)
Record SumCtx : Type := mkSumCtx {
  rSum : Z;          (* double sum of all terms *)
  iSum : Z;          (* integer sum, while exact *)
  cnt : nat;         (* number of terms *)
  approx : bool;     (* a REAL was met or the integer sum overflowed *)
  overflow : bool    (* the integer sum overflowed *)
}.

Definition sumStep (p : SumCtx) (v : Z) : SumCtx :=
  if stored_as_INTEGER v then
    let rSum' := Double.round (rSum p + Double.round v) in
    if approx p || overflow p
    then mkSumCtx rSum' (iSum p) (S (cnt p)) (approx p) (overflow p)
    else if is_int64 (iSum p + v)
    then mkSumCtx rSum' (iSum p + v) (S (cnt p)) false false
    else mkSumCtx rSum' (iSum p) (S (cnt p)) true true
  else
    mkSumCtx (Double.round (rSum p + v)) (iSum p) (S (cnt p)) true (overflow p).

(** [None] is the exception 'integer overflow'. *)
Definition sumFinalize (p : SumCtx) : option Value :=
  match cnt p with
  | O => Some NULL
  | S _ =>
      if overflow p then None
      else if approx p then Some (REAL (rSum p))
      else Some (INTEGER (iSum p))
  end.

(** [SUM(quantity)] over the rows in scan order. *)
Definition sum_quantity (its : list Item.t) : option Value :=
  sumFinalize
    (fold_left sumStep (map Item.quantity its) (mkSumCtx 0 0 O false false)).

Definition COALESCE (v : Value) (d : Z) : Value :=
  match v with NULL => INTEGER d | _ => v end.

(** A column value as the JavaScript number the driver returns. *)
Definition column_number (v : Value) : Z :=
  match v with
  | NULL => 0
  | INTEGER x => Double.round x
  | REAL x => x
  end.

End SQLite.
Import SQLite.

(** ** State, errors and the computation monad *)

Inductive Error : Type :=
| OpenFailed              (* SQLite.openDatabaseAsync rejected *)
| FailedToOpenDatabase    (* Error('Failed to open database') *)
| DatabaseNotInitialized  (* Error('Database not initialized') *)
| ItemNotFound            (* Error('Item not found') *)
| NoSuchTable             (* statement against a table that is absent *)
| IntegerOverflow.        (* SUM raised 'integer overflow' *)

Inductive Result (A : Type) : Type :=
| Ok (a : A)
| Err (e : Error).
Arguments Ok {A} _.
Arguments Err {A} _.

(** The world the service runs in: the file [warehouse.db], whether the
    engine can open it, and the two private fields of the service. *)
Record State : Type := mkState {
  warehouse_db : Database;
  can_open : bool;
  db : option SQLiteDatabase;
  isInitialized : bool
}.

Definition M (A : Type) : Type := State -> Result A * State.

Definition ret {A : Type} (a : A) : M A := fun st => (Ok a, st).

Definition throw {A : Type} (e : Error) : M A := fun st => (Err e, st).

Definition bind {A B : Type} (m : M A) (k : A -> M B) : M B :=
  fun st =>
    match m st with
    | (Ok a, st') => k a st'
    | (Err e, st') => (Err e, st')
    end.

(** [try { body } catch (error) { handler(error) }] *)
Definition try_catch {A : Type} (body : M A) (handler : Error -> M A) : M A :=
  fun st =>
    match body st with
    | (Ok a, st') => (Ok a, st')
    | (Err e, st') => handler e st'
    end.

Notation "x <- m ;; k" := (bind m (fun x => k))
  (at level 61, m at next level, right associativity).
Notation "m ;;; k" := (bind m (fun _ => k))
  (at level 61, right associativity).

Definition set_db (v : option SQLiteDatabase) : M unit :=
  fun st => (Ok tt, mkState (warehouse_db st) (can_open st) v (isInitialized st)).

Definition set_isInitialized (b : bool) : M unit :=
  fun st => (Ok tt, mkState (warehouse_db st) (can_open st) (db st) b).

Definition set_warehouse_db (d : Database) : M unit :=
  fun st => (Ok tt, mkState d (can_open st) (db st) (isInitialized st)).

Definition is_null {A : Type} (o : option A) : bool :=
  match o with None => true | Some _ => false end.

Definition get_db : M (option SQLiteDatabase) := fun st => (Ok (db st), st).

Definition get_isInitialized : M bool := fun st => (Ok (isInitialized st), st).

(** ** The statements the service issues *)

Module Stmt.

(** [SQLite.openDatabaseAsync('warehouse.db')] *)
Definition openDatabaseAsync : M SQLiteDatabase :=
  fun st => if can_open st then (Ok Connection, st) else (Err OpenFailed, st).

Definition from_items {A : Type} (k : Table Item.t -> M A) : M A :=
  fun st =>
    match items (warehouse_db st) with
    | Some t => k t st
    | None => (Err NoSuchTable, st)
    end.

Definition from_stock_logs {A : Type} (k : Table StockLog.t -> M A) : M A :=
  fun st =>
    match stock_logs (warehouse_db st) with
    | Some t => k t st
    | None => (Err NoSuchTable, st)
    end.

Definition write_items (t : Table Item.t) : M unit :=
  fun st => set_warehouse_db (mkDatabase (Some t) (stock_logs (warehouse_db st))) st.

Definition write_stock_logs (t : Table StockLog.t) : M unit :=
  fun st => set_warehouse_db (mkDatabase (items (warehouse_db st)) (Some t)) st.

(** [CREATE TABLE IF NOT EXISTS items (...)] *)
Definition create_table_items : M unit :=
  fun st =>
    match items (warehouse_db st) with
    | Some _ => (Ok tt, st)
    | None => write_items empty_table st
    end.

(** [CREATE TABLE IF NOT EXISTS stock_logs (...)] *)
Definition create_table_stock_logs : M unit :=
  fun st =>
    match stock_logs (warehouse_db st) with
    | Some _ => (Ok tt, st)
    | None => write_stock_logs empty_table st
    end.

(** [INSERT INTO items (name, sku, quantity, location, description,
    created_at) VALUES (?, ?, ?, ?, ?, ?)]; yields [lastInsertRowId]. *)
Definition insert_into_items
    (name sku : string) (quantity : Z) (location description created_at : string)
  : M Z :=
  from_items (fun t =>
    let rowid := next_rowid Item.id t in
    write_items
      (mkTable
         (rows t ++ [Item.mk rowid name sku quantity location description created_at])
         rowid) ;;;
    ret rowid).

(** [SELECT * FROM items ORDER BY created_at DESC] *)
Definition select_items_order_by_created_at_desc : M (list Item.t) :=
  from_items (fun t => ret (order_by_desc Item.created_at (rows t))).

(** [SELECT * FROM items WHERE id = ?], first row *)
Definition select_item_where_id (id : Z) : M (option Item.t) :=
  from_items (fun t => ret (find (fun i => Item.id i =? id) (rows t))).

(** [UPDATE items SET quantity = ? WHERE id = ?] *)
Definition update_items_set_quantity (quantity id : Z) : M unit :=
  from_items (fun t =>
    write_items
      (mkTable
         (map (fun i => if Item.id i =? id then Item.set_quantity quantity i else i)
              (rows t))
         (seq t))).

(** [DELETE FROM items WHERE id = ?] *)
Definition delete_from_items (id : Z) : M unit :=
  from_items (fun t =>
    write_items
      (mkTable (filter (fun i => negb (Item.id i =? id)) (rows t)) (seq t))).

(** [INSERT INTO stock_logs (item_id, type, quantity, note, timestamp)
    VALUES (?, ?, ?, ?, ?)]; yields [lastInsertRowId]. *)
Definition insert_into_stock_logs
    (item_id : Z) (type : MovementType) (quantity : Z) (note timestamp : string)
  : M Z :=
  from_stock_logs (fun t =>
    let rowid := next_rowid StockLog.id t in
    write_stock_logs
      (mkTable
         (rows t ++ [StockLog.mk rowid item_id type quantity note timestamp None])
         rowid) ;;;
    ret rowid).

(** [SELECT * FROM stock_logs WHERE item_id = ? ORDER BY timestamp DESC] *)
Definition select_stock_logs_where_item_id (itemId : Z) : M (list StockLog.t) :=
  from_stock_logs (fun t =>
    ret (order_by_desc StockLog.timestamp
           (filter (fun l => StockLog.item_id l =? itemId) (rows t)))).

(** [SELECT sl.*, i.name as item_name FROM stock_logs sl JOIN items i
    ON sl.item_id = i.id ORDER BY sl.timestamp DESC LIMIT ?] *)
Definition select_recent_stock_logs (limit : Z) : M (list StockLog.t) :=
  from_stock_logs (fun sl =>
  from_items (fun i =>
    ret (limit_rows limit
           (order_by_desc StockLog.timestamp
              (join_logs_items (rows sl) (rows i)))))).

(** [SELECT COUNT( * ) as count FROM items] *)
Definition select_count_items : M Z :=
  from_items (fun t => ret (Z.of_nat (List.length (rows t)))).

(** [SELECT COALESCE(SUM(quantity), 0) as total FROM items] *)
Definition select_total_quantity : M Z :=
  from_items (fun t =>
    match sum_quantity (rows t) with
    | Some v => ret (column_number (COALESCE v 0))
    | None => throw IntegerOverflow
    end).

End Stmt.

(** ** DatabaseService *)

Definition createTables : M unit :=
  d <- get_db ;;
  if is_null d then throw DatabaseNotInitialized
  else
    try_catch
      (Stmt.create_table_items ;;;
       Stmt.create_table_stock_logs)
      (fun error => throw error).

Definition init : M unit :=
  try_catch
    (d <- get_db ;;
     i <- get_isInitialized ;;
     if i && JS.not (is_null d) then ret tt
     else
       h <- Stmt.openDatabaseAsync ;;
       set_db (Some h) ;;;
       d' <- get_db ;;
       (if is_null d' then throw FailedToOpenDatabase else ret tt) ;;;
       createTables ;;;
       set_isInitialized true)
    (fun error =>
       set_db None ;;;
       set_isInitialized false ;;;
       throw error).

Definition ensureInitialized : M unit :=
  d <- get_db ;;
  i <- get_isInitialized ;;
  if JS.not i || is_null d then init else ret tt.

Definition isReady (st : State) : bool :=
  isInitialized st && JS.not (is_null (db st)).

(** [if (!this.db) throw new Error('Database not initialized')] *)
Definition require_db : M unit :=
  d <- get_db ;;
  if is_null d then throw DatabaseNotInitialized else ret tt.

Definition rethrow {A : Type} (body : M A) : M A :=
  try_catch body (fun error => throw error).

Definition addItem (item : Item.t) : M Z :=
  ensureInitialized ;;;
  require_db ;;;
  rethrow
    (Stmt.insert_into_items
       (Item.name item)
       (JS.or_str (Item.sku item) "")
       (JS.or_num (Item.quantity item) 0)
       (JS.or_str (Item.location item) "")
       (JS.or_str (Item.description item) "")
       (Item.created_at item)).

Definition getAllItems : M (list Item.t) :=
  ensureInitialized ;;;
  require_db ;;;
  rethrow Stmt.select_items_order_by_created_at_desc.

Definition getItemById (id : Z) : M (option Item.t) :=
  ensureInitialized ;;;
  require_db ;;;
  rethrow (Stmt.select_item_where_id id).

Definition updateItemQuantity (id newQuantity : Z) : M unit :=
  ensureInitialized ;;;
  require_db ;;;
  rethrow (Stmt.update_items_set_quantity newQuantity id).

Definition deleteItem (id : Z) : M unit :=
  ensureInitialized ;;;
  require_db ;;;
  rethrow (Stmt.delete_from_items id).

Definition addStockLog (log : StockLog.t) : M Z :=
  ensureInitialized ;;;
  require_db ;;;
  rethrow
    (Stmt.insert_into_stock_logs
       (StockLog.item_id log)
       (StockLog.type log)
       (JS.or_num (StockLog.quantity log) 0)
       (JS.or_str (StockLog.note log) "")
       (StockLog.timestamp log)).

Definition getStockLogsByItemId (itemId : Z) : M (list StockLog.t) :=
  require_db ;;;
  Stmt.select_stock_logs_where_item_id itemId.

Definition getRecentStockLogs (limit : Z) : M (list StockLog.t) :=
  require_db ;;;
  Stmt.select_recent_stock_logs limit.

Definition getDashboardStats : M DashboardStats :=
  ensureInitialized ;;;
  require_db ;;;
  rethrow
    (totalItemsResult <- Stmt.select_count_items ;;
     totalQuantityResult <- Stmt.select_total_quantity ;;
     recentLogs <- getRecentStockLogs 5 ;;
     ret (mkDashboardStats
            (JS.or_num totalItemsResult 0)
            (JS.or_num totalQuantityResult 0)
            recentLogs)).

(** [now] is the reading of the clock, [new Date().toISOString()]. *)
Definition processStockMovement
    (itemId : Z) (type : MovementType) (quantity : Z) (note now : string)
  : M unit :=
  require_db ;;;
  item <- getItemById itemId ;;
  match item with
  | None => throw ItemNotFound
  | Some item =>
      let newQuantity :=
        if MovementType_eqb type type_in
        then JS.add (Item.quantity item) quantity
        else JS.Math_max 0 (JS.sub (Item.quantity item) quantity) in
      updateItemQuantity itemId newQuantity ;;;
      addStockLog (StockLog.mk 0 itemId type quantity note now None) ;;;
      ret tt
  end.

(** ** Views of the state, calls and reachability *)

Definition item_rows (st : State) : list Item.t :=
  match items (warehouse_db st) with Some t => rows t | None => [] end.

Definition log_rows (st : State) : list StockLog.t :=
  match stock_logs (warehouse_db st) with Some t => rows t | None => [] end.

Definition tables_exist (d : Database) : bool :=
  JS.not (is_null (items d)) && JS.not (is_null (stock_logs d)).

(** The service is ready and its two tables are there. *)
Definition ready (st : State) : bool :=
  isReady st && tables_exist (warehouse_db st).

(** A process that has just started: nothing opened yet. *)
Definition start (file : Database) (openable : bool) : State :=
  mkState file openable None false.

Definition no_tables : Database := mkDatabase None None.

(** The public methods, as a caller invokes them. *)
Inductive Call : Type :=
| call_init
| call_addItem (item : Item.t)
| call_getAllItems
| call_getItemById (id : Z)
| call_updateItemQuantity (id newQuantity : Z)
| call_deleteItem (id : Z)
| call_addStockLog (log : StockLog.t)
| call_getStockLogsByItemId (itemId : Z)
| call_getRecentStockLogs (limit : Z)
| call_getDashboardStats
| call_processStockMovement
    (itemId : Z) (type : MovementType) (quantity : Z) (note now : string).

(** The state a call leaves behind, whether it returns or throws. *)
Definition after (c : Call) (st : State) : State :=
  match c with
  | call_init => snd (init st)
  | call_addItem item => snd (addItem item st)
  | call_getAllItems => snd (getAllItems st)
  | call_getItemById id => snd (getItemById id st)
  | call_updateItemQuantity id q => snd (updateItemQuantity id q st)
  | call_deleteItem id => snd (deleteItem id st)
  | call_addStockLog log => snd (addStockLog log st)
  | call_getStockLogsByItemId id => snd (getStockLogsByItemId id st)
  | call_getRecentStockLogs n => snd (getRecentStockLogs n st)
  | call_getDashboardStats => snd (getDashboardStats st)
  | call_processStockMovement id ty q note now =>
      snd (processStockMovement id ty q note now st)
  end.

(** States the application can be in when its callers only make the
    calls that [allowed] admits: it starts on an empty file, makes
    calls, and may be restarted (the file stays, the service's fields
    are reset). *)
Inductive reachable (allowed : Call -> Prop) : State -> Prop :=
| reachable_start (openable : bool) :
    reachable allowed (start no_tables openable)
| reachable_call (c : Call) (st : State) :
    reachable allowed st -> allowed c -> reachable allowed (after c st)
| reachable_restart (openable : bool) (st : State) :
    reachable allowed st ->
    reachable allowed (start (warehouse_db st) openable).

Definition any_call (c : Call) : Prop := True.

(** The state after a sequence of calls, oldest first. *)
Definition after_all (cs : list Call) (st : State) : State :=
  fold_left (fun s c => after c s) cs st.

(** ** What callers are expected to pass *)

(** Calls that never hand the service a negative quantity to store. *)
Definition keeps_quantities_nonneg (c : Call) : Prop :=
  match c with
  | call_addItem item => 0 <= Item.quantity item
  | call_updateItemQuantity _ newQuantity => 0 <= newQuantity
  | call_processStockMovement _ type_in quantity _ _ => 0 <= quantity
  | _ => True
  end.

(** Calls that only ever log a strictly positive quantity. *)
Definition moves_positive_quantities (c : Call) : Prop :=
  match c with
  | call_addStockLog log => 0 < StockLog.quantity log
  | call_processStockMovement _ _ quantity _ _ => 0 < quantity
  | _ => True
  end.

Definition nonneg_quantity (i : Item.t) : Prop := 0 <= Item.quantity i.

Definition positive_quantity (l : StockLog.t) : Prop := 0 < StockLog.quantity l.

(** Sum of the quantities of a list of items. *)
Definition total (its : list Item.t) : Z :=
  fold_right Z.add 0 (map Item.quantity its).

(** Sum of their magnitudes: while it is a safe integer, no partial
    sum of the quantities leaves the safe range. *)
Definition total_magnitude (its : list Item.t) : Z :=
  fold_right Z.add 0 (map (fun i => Z.abs (Item.quantity i)) its).

(** ** A small warehouse used in the examples *)

Definition widget : Item.t :=
  Item.mk 0 "Widget" "W-001" 8 "A1-B2" "" "2024-01-01T09:00:00.000Z".

(** One item, id 1, quantity 8, empty ledger. *)
Definition stocked : State :=
  after_all [call_init; call_addItem widget] (start no_tables true).

Definition stocked_widget : Item.t :=
  Item.mk 1 "Widget" "W-001" 8 "A1-B2" "" "2024-01-01T09:00:00.000Z".

(** After taking 20 out of the 8 in stock. *)
Definition moved : State :=
  after (call_processStockMovement 1 type_out 20 "damaged"
           "2024-02-01T10:00:00.000Z")
        stocked.

Definition damaged_entry : StockLog.t :=
  StockLog.mk 1 1 type_out 20 "damaged" "2024-02-01T10:00:00.000Z" None.


(** Two pallets of 2^62 pieces each. *)
Definition pallet : Item.t :=
  Item.mk 0 "Pallet" "P-001" 4611686018427387904 "Z9" ""
    "2024-01-01T09:00:00.000Z".

Definition overstocked : State :=
  after_all [call_init; call_addItem pallet; call_addItem pallet]
    (start no_tables true).

(** A bin filled to [Number.MAX_SAFE_INTEGER]. *)
Definition full_bin : Item.t :=
  Item.mk 0 "Bin" "B-001" 9007199254740991 "Z1" ""
    "2024-01-01T09:00:00.000Z".

Definition brimming : State :=
  after_all [call_init; call_addItem full_bin] (start no_tables true).

(** 2^53 pieces of one item and a single piece of another. *)
Definition heaped : State :=
  after_all
    [call_init;
     call_addItem (Item.mk 0 "Heap" "H-001" 9007199254740992 "Z2" ""
                     "2024-01-01T09:00:00.000Z");
     call_addItem (Item.mk 0 "Piece" "H-002" 1 "Z3" ""
                     "2024-01-02T09:00:00.000Z")]
    (start no_tables true).

(** ** Proof automation *)

(** Unfolds the service down to the list operations on the rows. *)
Ltac run_service :=
  cbv beta iota zeta delta
    [after init ensureInitialized createTables require_db rethrow isReady
     addItem getAllItems getItemById updateItemQuantity deleteItem
     addStockLog getStockLogsByItemId getRecentStockLogs getDashboardStats
     processStockMovement
     Stmt.openDatabaseAsync Stmt.from_items Stmt.from_stock_logs
     Stmt.write_items Stmt.write_stock_logs
     Stmt.create_table_items Stmt.create_table_stock_logs
     Stmt.insert_into_items Stmt.select_items_order_by_created_at_desc
     Stmt.select_item_where_id Stmt.update_items_set_quantity
     Stmt.delete_from_items Stmt.insert_into_stock_logs
     Stmt.select_stock_logs_where_item_id Stmt.select_recent_stock_logs
     Stmt.select_count_items Stmt.select_total_quantity
     bind ret throw try_catch get_db get_isInitialized
     set_db set_isInitialized set_warehouse_db is_null
     warehouse_db can_open db isInitialized items stock_logs rows seq
     item_rows log_rows ready tables_exist start no_tables empty_table
     JS.not andb orb fst snd].

(** Case analysis on the outcome of [SUM], then [run_service]. *)
Ltac case_sum :=
  repeat match goal with
         | |- context [sum_quantity ?l] => destruct (sum_quantity l)
         end;
  run_service.

(** Case analysis on what is on file and on the service's two fields. *)
Ltac destruct_state st :=
  let it := fresh "it" in
  let lt := fresh "lt" in
  let co := fresh "co" in
  let ini := fresh "ini" in
  destruct st as [[[[it ?]|] [[lt ?]|]] co [[]|] ini];
  destruct co, ini.

(** ** Keys and sequences *)

Definition item_ids (st : State) : list Z := map Item.id (item_rows st).

Definition log_ids (st : State) : list Z := map StockLog.id (log_rows st).

Definition item_seq (st : State) : Z :=
  match items (warehouse_db st) with Some t => seq t | None => 0 end.

Definition log_seq (st : State) : Z :=
  match stock_logs (warehouse_db st) with Some t => seq t | None => 0 end.

(** Rowids are distinct, positive and never above the table's sequence. *)
Definition keyed (ids : list Z) (s : Z) : Prop :=
  NoDup ids /\ Forall (fun k => 0 < k <= s) ids /\ 0 <= s.

Definition keys_ok (st : State) : Prop :=
  keyed (item_ids st) (item_seq st) /\ keyed (log_ids st) (log_seq st).

(** The methods that issue no INSERT, UPDATE or DELETE. *)
Definition reads_only (c : Call) : bool :=
  match c with
  | call_init
  | call_getAllItems
  | call_getItemById _
  | call_getStockLogsByItemId _
  | call_getRecentStockLogs _
  | call_getDashboardStats => true
  | _ => false
  end.

(** ** utils/sampleData.ts *)

(** [for (const x of l) { const y = await f(x); ys.push(y); }] *)
Fixpoint for_each {A B : Type} (f : A -> M B) (l : list A) : M (list B) :=
  match l with
  | [] => ret []
  | x :: l' =>
      y <- f x ;;
      ys <- for_each f l' ;;
      ret (y :: ys)
  end.

(** The readings of the clock that [addSampleData] takes: one
    [new Date().toISOString()] per sample item, then the two shifted
    readings of the sample movements. *)
Record SampleClock : Type := mkSampleClock {
  created_at_1 : string;
  created_at_2 : string;
  created_at_3 : string;
  created_at_4 : string;
  two_days_ago : string;
  one_day_ago : string
}.

Definition sampleItems (clock : SampleClock) : list Item.t :=
  [ Item.mk 0 "Wireless Headphones" "WH-001" 25 "A1-B2"
      "Bluetooth headphones" (created_at_1 clock);
    Item.mk 0 "USB Cable" "USB-002" 50 "B1-C1"
      "USB-C charging cable" (created_at_2 clock);
    Item.mk 0 "Phone Case" "PC-003" 8 "C1-D1"
      "Protective phone case" (created_at_3 clock);
    Item.mk 0 "Laptop Stand" "LS-004" 0 "D1-A1"
      "Adjustable laptop stand" (created_at_4 clock) ].

(** [itemIds[k]]; the array holds one id per sample item when it is
    read, so the index is always in range. *)
Definition at_index (itemIds : list Z) (k : nat) : Z := nth k itemIds 0.

Definition sampleMovements (clock : SampleClock) (itemIds : list Z)
  : list StockLog.t :=
  [ StockLog.mk 0 (at_index itemIds 0) type_in 10 "Initial stock"
      (two_days_ago clock) None;
    StockLog.mk 0 (at_index itemIds 1) type_out 5 "Customer order"
      (one_day_ago clock) None ].

Definition addSampleData (clock : SampleClock) : M unit :=
  try_catch
    (existingItems <- getAllItems ;;
     if 0 <? Z.of_nat (List.length existingItems) then ret tt
     else
       itemIds <- for_each addItem (sampleItems clock) ;;
       for_each addStockLog (sampleMovements clock itemIds) ;;;
       ret tt)
    (fun error => ret tt).

(** ** screens/StockMovementScreen.tsx *)

Module StockMovementScreen.

(** Route parameters and component state. *)
Record t : Type := mk {
  itemId : Z;
  type : MovementType;
  item : option Item.t;
  quantity : string;
  note : string
}.

Definition setItem (i : Item.t) (s : t) : t :=
  mk (itemId s) (type s) (Some i) (quantity s) (note s).

(** What the user is shown when [handleSubmit] is done. *)
Inductive Outcome : Type :=
| NotSubmitted   (* validation failed or no item loaded: nothing sent *)
| Success        (* Alert 'Success' *)
| Failed.        (* Alert 'Error' *)

Section Builtins.

(** [String.prototype.trim] and the global [parseInt], whose result is
    either an integer or NaN ([None]). *)
Variable trim : string -> string.
Variable parseInt : string -> option Z.

Definition loadItem (s : t) : M t :=
  try_catch
    (itemData <- getItemById (itemId s) ;;
     match itemData with
     | None => ret s
     | Some i => ret (setItem i s)
     end)
    (fun error => ret s).

Definition validateInput (s : t) : bool :=
  if String.eqb (trim (quantity s)) "" then false
  else
    match parseInt (quantity s) with
    | None => false
    | Some quantityNum =>
        if quantityNum <=? 0 then false
        else
          match item s with
          | Some i =>
              if MovementType_eqb (type s) type_out
                 && (Item.quantity i <? quantityNum)
              then false
              else true
          | None => true
          end
    end.

(** [now] is the clock reading that [processStockMovement] takes.  The
    second [parseInt] reads the text that [validateInput] accepted, so
    it is a number. *)
Definition handleSubmit (s : t) (now : string) : M Outcome :=
  if JS.not (validateInput s) || is_null (item s) then ret NotSubmitted
  else
    try_catch
      (match parseInt (quantity s) with
       | Some quantityNum =>
           processStockMovement (itemId s) (type s) quantityNum
             (trim (note s)) now ;;;
           ret Success
       | None => ret Failed
       end)
      (fun error => ret Failed).

End Builtins.

End StockMovementScreen.

(** ** Examples for the screen and the seed data *)

Definition sample_clock : SampleClock :=
  mkSampleClock
    "2024-03-01T08:00:00.000Z" "2024-03-01T08:00:00.001Z"
    "2024-03-01T08:00:00.002Z" "2024-03-01T08:00:00.003Z"
    "2024-02-28T08:00:00.004Z" "2024-02-29T08:00:00.004Z".

(** A ready service over empty tables. *)
Definition opened : State := after call_init (start no_tables true).

(** The text "5" read as 5, anything else as NaN. *)
Definition parse_five (s : string) : option Z :=
  if String.eqb s "5" then Some 5 else None.

Definition same_text (s : string) : string := s.

Definition taking_five : StockMovementScreen.t :=
  StockMovementScreen.mk 1 type_out (Some stocked_widget) "5" "sold".

(** As [run_service], with the key views unfolded as well. *)
Ltac run_views :=
  unfold item_ids, log_ids, item_seq, log_seq; run_service.

(** * Properties *)

(** ** Doubles *)

Lemma Double_round_exact (x : Z) : JS.safe x = true -> Double.round x = x.
Proof.
  unfold JS.safe, JS.MAX_SAFE_INTEGER. intros H.
  apply andb_true_iff in H. destruct H as [Hlo Hhi].
  apply Z.leb_le in Hlo, Hhi. unfold Double.round.
  destruct (Z.ltb_spec (Z.log2 (Z.abs x)) 53) as [_|Hge]; [reflexivity|].
  exfalso. destruct (Z.eq_dec (Z.abs x) 0) as [E|E].
  - rewrite E in Hge. simpl in Hge. lia.
  - assert (Hlt : Z.log2 (Z.abs x) < 53).
    { apply Z.log2_lt_pow2; [lia|]. change (2 ^ 53) with 9007199254740992. lia. }
    lia.
Qed.

Lemma Double_round_nonneg (x : Z) : 0 <= x -> 0 <= Double.round x.
Proof.
  intros Hx. unfold Double.round.
  destruct (Z.ltb_spec (Z.log2 (Z.abs x)) 53) as [_|He]; [exact Hx|].
  set (ulp := 2 ^ (Z.log2 (Z.abs x) - 52)).
  assert (Hulp : 0 < ulp) by (apply Z.pow_pos_nonneg; lia).
  assert (Hq : 0 <= Z.abs x / ulp) by (apply Z.div_pos; lia).
  apply Z.mul_nonneg_nonneg; [lia|].
  apply Z.mul_nonneg_nonneg; [|lia].
  destruct (_ || _); lia.
Qed.

(** ** Byte-wise order on text *)

Lemma string_compare_not_Gt_trans (a b c : string) :
  String.compare a b <> Gt -> String.compare b c <> Gt ->
  String.compare a c <> Gt.
Proof.
  revert b c.
  induction a as [|x a IH]; intros [|y b] [|z c]; simpl; try congruence.
  unfold Ascii.compare.
  destruct (N.compare_spec (N_of_ascii x) (N_of_ascii y)) as [Hxy|Hxy|Hxy];
    destruct (N.compare_spec (N_of_ascii y) (N_of_ascii z)) as [Hyz|Hyz|Hyz];
    try congruence; intros Hab Hbc.
  - rewrite Hxy, Hyz, N.compare_refl. now apply IH with b.
  - rewrite Hxy. apply N.compare_lt_iff in Hyz. now rewrite Hyz.
  - rewrite <- Hyz. apply N.compare_lt_iff in Hxy. now rewrite Hxy.
  - assert (H : (N_of_ascii x < N_of_ascii z)%N) by lia.
    apply N.compare_lt_iff in H. now rewrite H.
Qed.

Lemma string_leb_trans (a b c : string) :
  String.leb a b = true -> String.leb b c = true -> String.leb a c = true.
Proof.
  unfold String.leb. intros Hab Hbc.
  assert (H : String.compare a c <> Gt).
  { apply string_compare_not_Gt_trans with b.
    - destruct (String.compare a b); congruence.
    - destruct (String.compare b c); congruence. }
  destruct (String.compare a c); congruence.
Qed.

Lemma string_ltb_leb (a b : string) :
  String.ltb a b = true -> String.leb a b = true.
Proof. unfold String.ltb, String.leb. destruct (String.compare a b); congruence. Qed.

Lemma string_nltb_leb (a b : string) :
  String.ltb a b = false -> String.leb b a = true.
Proof.
  unfold String.ltb, String.leb. rewrite (String.compare_antisym a b).
  destruct (String.compare b a); simpl; congruence.
Qed.

(** ** ORDER BY ... DESC *)

Section OrderByFacts.
Context {R : Type} (key : R -> string).

Lemma insert_desc_perm (x : R) (l : list R) :
  Permutation (insert_desc key x l) (x :: l).
Proof.
  induction l as [|y l IH]; simpl; [reflexivity|].
  destruct (String.ltb (key x) (key y)); [|reflexivity].
  rewrite IH. apply perm_swap.
Qed.

Lemma order_by_desc_perm (l : list R) :
  Permutation (order_by_desc key l) l.
Proof.
  induction l as [|x l IH]; simpl; [reflexivity|].
  rewrite insert_desc_perm. now constructor.
Qed.

Lemma insert_desc_sorted (x : R) (l : list R) :
  StronglySorted (not_before key) l ->
  StronglySorted (not_before key) (insert_desc key x l).
Proof.
  induction 1 as [|y l Hl IH Hy]; simpl.
  - repeat constructor.
  - destruct (String.ltb (key x) (key y)) eqn:E.
    + constructor; [exact IH|].
      rewrite Forall_forall in *. intros z Hz.
      apply (Permutation_in _ (insert_desc_perm x l)) in Hz.
      destruct Hz as [<-|Hz]; [|now apply Hy].
      now apply string_ltb_leb.
    + constructor; [now constructor|].
      constructor; [now apply string_nltb_leb|].
      rewrite Forall_forall in *. intros z Hz.
      unfold not_before. apply string_leb_trans with (key y).
      * now apply Hy.
      * now apply string_nltb_leb.
Qed.

Lemma order_by_desc_sorted (l : list R) :
  StronglySorted (not_before key) (order_by_desc key l).
Proof.
  induction l as [|x l IH]; simpl; [constructor|].
  now apply insert_desc_sorted.
Qed.

End OrderByFacts.

(** ** The service on a ready state *)

Lemma ready_inv (st : State) :
  ready st = true ->
  exists its iseq logs lseq co,
    st = mkState (mkDatabase (Some (mkTable its iseq)) (Some (mkTable logs lseq)))
                 co (Some Connection) true.
Proof.
  destruct_state st; run_service; intros H; try discriminate H;
    repeat eexists.
Qed.


Lemma or_num_0 x : JS.or_num x 0 = x.
Proof. unfold JS.or_num. destruct (Z.eqb_spec x 0); congruence. Qed.

Lemma or_str_empty s : JS.or_str s "" = s.
Proof. unfold JS.or_str. destruct (String.eqb_spec s ""); congruence. Qed.

Lemma find_update (id q : Z) (l : list Item.t) (item : Item.t) :
  find (fun i => Item.id i =? id) l = Some item ->
  find (fun i => Item.id i =? id)
       (map (fun i => if Item.id i =? id then Item.set_quantity q i else i) l)
  = Some (Item.set_quantity q item).
Proof.
  induction l as [|x l IH]; simpl; [discriminate|].
  destruct (Item.id x =? id) eqn:E; simpl.
  - rewrite E. now intros [= ->].
  - rewrite E. exact IH.
Qed.

Lemma find_none_iff (id : Z) (l : list Item.t) :
  find (fun i => Item.id i =? id) l = None <->
  (forall i, In i l -> Item.id i <> id).
Proof.
  split.
  - intros H i Hi E. apply (find_none _ _ H) in Hi. apply Z.eqb_neq in Hi. auto.
  - intros H. destruct (find _ l) eqn:E; [|reflexivity].
    apply find_some in E. destruct E as [Hi E]. apply Z.eqb_eq in E.
    now apply H in Hi.
Qed.

Lemma update_absent (id q : Z) (l : list Item.t) :
  (forall i, In i l -> Item.id i <> id) ->
  map (fun i => if Item.id i =? id then Item.set_quantity q i else i) l = l.
Proof.
  induction l as [|x l IH]; simpl; intros H; [reflexivity|].
  rewrite IH by auto.
  destruct (Z.eqb_spec (Item.id x) id) as [E|E]; [|reflexivity].
  exfalso. apply (H x); auto.
Qed.

Lemma delete_absent (id : Z) (l : list Item.t) :
  (forall i, In i l -> Item.id i <> id) ->
  filter (fun i => negb (Item.id i =? id)) l = l.
Proof.
  induction l as [|x l IH]; simpl; intros H; [reflexivity|].
  rewrite IH by auto.
  destruct (Z.eqb_spec (Item.id x) id) as [E|E]; [|reflexivity].
  exfalso. apply (H x); auto.
Qed.

(** C1 (amended).  On a ready service, for an item that exists with
    stored quantity [Q], [processStockMovement] returns and the stored
    quantity afterwards is [Q + q] for ['in'] and [max 0 (Q - q)] for
    ['out'], provided that sum, respectively that difference, is a
    safe integer (at most 2^53 - 1 in magnitude: the service computes
    on doubles, which are exact there and rounded beyond).  After an
    ['out'] movement it is never negative; after an ['in'] movement it
    is non-negative when [Q] and [q] are. *)
Theorem processStockMovement_quantity
    (st : State) (itemId : Z) (ty : MovementType) (q : Z) (note now : string)
    (item : Item.t) :
  ready st = true ->
  getItemById itemId st = (Ok (Some item), st) ->
  exists st' item',
    processStockMovement itemId ty q note now st = (Ok tt, st') /\
    getItemById itemId st' = (Ok (Some item'), st') /\
    (ty = type_in -> JS.safe (Item.quantity item + q) = true ->
     Item.quantity item' = Item.quantity item + q) /\
    (ty = type_out -> JS.safe (Item.quantity item - q) = true ->
     Item.quantity item' = Z.max 0 (Item.quantity item - q)) /\
    (ty = type_out -> 0 <= Item.quantity item') /\
    (ty = type_in -> 0 <= Item.quantity item -> 0 <= q ->
     0 <= Item.quantity item').
Proof.
  intros Hready Hget.
  destruct (ready_inv st Hready) as (its & iseq & logs & lseq & co & ->).
  revert Hget. run_service. intros [= Hfind].
  rewrite Hfind.
  destruct ty; run_service;
    unfold MovementType_eqb, JS.Math_max, JS.add, JS.sub;
    eexists; eexists;
    (split; [reflexivity|]);
    (split; [now rewrite (find_update _ _ _ _ Hfind)|]);
    simpl; repeat split; intros; try discriminate;
    rewrite ?Double_round_exact by assumption;
    try reflexivity; try lia.
  apply Double_round_nonneg. lia.
Qed.

Lemma filter_snoc {A : Type} (f : A -> bool) (l : list A) (x : A) :
  f x = true -> filter f (l ++ [x]) = filter f l ++ [x].
Proof. intros H. rewrite filter_app. simpl. now rewrite H. Qed.

(** C2.  On a ready service, for an item that exists,
    [processStockMovement] returns and the ledger is the old ledger
    with exactly one row appended; that row carries the item id, the
    requested quantity as passed (not the clamped one), the type, the
    note and the clock reading.  [getStockLogsByItemId] for the item
    returns the old result plus that one entry.  With 8 in stock,
    taking 20 out leaves 0 in stock and logs 20, ['out']. *)
Theorem processStockMovement_ledger
    (st : State) (itemId : Z) (ty : MovementType) (q : Z) (note now : string)
    (item : Item.t) :
  ready st = true ->
  getItemById itemId st = (Ok (Some item), st) ->
  exists st' entry item' before logs',
    processStockMovement itemId ty q note now st = (Ok tt, st') /\
    log_rows st' = log_rows st ++ [entry] /\
    StockLog.item_id entry = itemId /\
    StockLog.quantity entry = q /\
    StockLog.type entry = ty /\
    StockLog.note entry = note /\
    StockLog.timestamp entry = now /\
    getStockLogsByItemId itemId st = (Ok before, st) /\
    getStockLogsByItemId itemId st' = (Ok logs', st') /\
    Permutation logs' (entry :: before) /\
    getItemById itemId st' = (Ok (Some item'), st') /\
    (Item.quantity item = 8 -> ty = type_out -> q = 20 ->
     Item.quantity item' = 0 /\
     StockLog.quantity entry = 20 /\ StockLog.type entry = type_out).
Proof.
  intros Hready Hget.
  destruct (ready_inv st Hready) as (its & iseq & logs & lseq & co & ->).
  revert Hget. run_service. intros [= Hfind].
  rewrite Hfind.
  destruct ty; run_service; unfold MovementType_eqb, JS.Math_max;
    do 5 eexists;
    (split; [reflexivity|]); simpl;
    rewrite or_num_0, or_str_empty;
    (split; [reflexivity|]);
    do 7 (split; [reflexivity|]);
    (split;
     [ rewrite filter_snoc by (simpl; apply Z.eqb_refl);
       rewrite order_by_desc_perm, <- Permutation_cons_append;
       constructor; symmetry; apply order_by_desc_perm |]);
    (split; [now rewrite (find_update _ _ _ _ Hfind)|]);
    simpl; intros HQ Hty Hq; try discriminate Hty.
  rewrite HQ, Hq. repeat split.
Qed.

(** C6.  On a ready service [processStockMovement] throws 'Item not
    found' exactly when no row of [items] has the id, and then the
    state (both tables included) is the one it started from. *)
Theorem processStockMovement_NotFound
    (st : State) (itemId : Z) (ty : MovementType) (q : Z) (note now : string) :
  ready st = true ->
  (fst (processStockMovement itemId ty q note now st) = Err ItemNotFound <->
   (forall i, In i (item_rows st) -> Item.id i <> itemId)) /\
  (fst (processStockMovement itemId ty q note now st) = Err ItemNotFound ->
   snd (processStockMovement itemId ty q note now st) = st).
Proof.
  intros Hready.
  destruct (ready_inv st Hready) as (its & iseq & logs & lseq & co & ->).
  run_service. rewrite <- find_none_iff.
  destruct (find (fun i => Item.id i =? itemId) its) as [item|] eqn:Hfind.
  - destruct ty; run_service; (split; [split|]); intros H; discriminate H.
  - run_service. repeat split; reflexivity.
Qed.

(** C10.  On a ready service, for an id that no item has,
    [updateItemQuantity] and [deleteItem] both return normally and
    leave the state exactly as it was. *)
Theorem absent_item_update_delete (st : State) (id q : Z) :
  ready st = true ->
  (forall i, In i (item_rows st) -> Item.id i <> id) ->
  updateItemQuantity id q st = (Ok tt, st) /\
  deleteItem id st = (Ok tt, st).
Proof.
  intros Hready.
  destruct (ready_inv st Hready) as (its & iseq & logs & lseq & co & ->).
  run_service. intros Habs.
  now rewrite update_absent, (delete_absent id its) by exact Habs.
Qed.

Lemma find_filter_other (id j : Z) (l : list Item.t) :
  j <> id ->
  find (fun i => Item.id i =? j) (filter (fun i => negb (Item.id i =? id)) l)
  = find (fun i => Item.id i =? j) l.
Proof.
  intros Hj. induction l as [|x l IH]; simpl; [reflexivity|].
  destruct (Z.eqb_spec (Item.id x) id) as [E|E]; simpl.
  - destruct (Z.eqb_spec (Item.id x) j) as [E'|E']; [congruence|exact IH].
  - now rewrite IH.
Qed.

(** C8.  On a ready service [deleteItem] returns; the ledger rows are
    untouched, [getStockLogsByItemId] gives for the deleted id (and for
    every other id) the result it gave before, the remaining items are
    exactly the former items with another id, and looking up any other
    id gives what it gave before. *)
Theorem deleteItem_no_cascade (st : State) (id : Z) :
  ready st = true ->
  exists st' logs,
    deleteItem id st = (Ok tt, st') /\
    log_rows st' = log_rows st /\
    getStockLogsByItemId id st = (Ok logs, st) /\
    getStockLogsByItemId id st' = (Ok logs, st') /\
    (forall itemId,
       fst (getStockLogsByItemId itemId st') = fst (getStockLogsByItemId itemId st)) /\
    (forall i, In i (item_rows st') <-> In i (item_rows st) /\ Item.id i <> id) /\
    (forall j, j <> id -> fst (getItemById j st') = fst (getItemById j st)).
Proof.
  intros Hready.
  destruct (ready_inv st Hready) as (its & iseq & logs & lseq & co & ->).
  run_service. do 2 eexists.
  do 5 (split; [reflexivity|]). split.
  - intros i. rewrite filter_In, negb_true_iff, Z.eqb_neq. tauto.
  - intros j Hj. f_equal. now apply find_filter_other.
Qed.

Lemma total_perm (l l' : list Item.t) :
  Permutation l l' -> total l = total l'.
Proof.
  unfold total. induction 1; simpl; lia.
Qed.

Lemma total_magnitude_nonneg (its : list Item.t) : 0 <= total_magnitude its.
Proof. unfold total_magnitude. induction its as [|x l IH]; simpl; lia. Qed.

Lemma total_le_magnitude (its : list Item.t) :
  Z.abs (total its) <= total_magnitude its.
Proof.
  unfold total, total_magnitude. induction its as [|x l IH]; simpl; lia.
Qed.

Lemma safe_of_magnitude (x m : Z) :
  Z.abs x <= m -> m <= JS.MAX_SAFE_INTEGER -> JS.safe x = true.
Proof.
  intros Hx Hm. unfold JS.safe. apply andb_true_iff.
  split; apply Z.leb_le; lia.
Qed.

(** While the magnitudes stay within the safe range, [SUM] adds
    64-bit integers and nothing overflows. *)
Lemma fold_sumStep_exact (l : list Item.t) (p : SumCtx) :
  approx p = false -> overflow p = false ->
  Z.abs (iSum p) + total_magnitude l <= JS.MAX_SAFE_INTEGER ->
  exists r,
    fold_left sumStep (map Item.quantity l) p
    = mkSumCtx r (iSum p + total l) (cnt p + List.length l) false false.
Proof.
  revert p. induction l as [|x l IH]; intros [r0 i0 c0 a0 o0]; simpl;
    intros -> -> Hb.
  - exists r0. now rewrite Z.add_0_r, Nat.add_0_r.
  - pose proof (total_magnitude_nonneg l) as Hl.
    change (total_magnitude (x :: l))
      with (Z.abs (Item.quantity x) + total_magnitude l) in Hb.
    change (total (x :: l)) with (Item.quantity x + total l).
    unfold JS.MAX_SAFE_INTEGER in Hb.
    assert (Hint : stored_as_INTEGER (Item.quantity x) = true).
    { unfold stored_as_INTEGER, MIN_INT64, MAX_INT64.
      apply andb_true_iff. split; apply Z.ltb_lt; lia. }
    assert (H64 : is_int64 (i0 + Item.quantity x) = true).
    { unfold is_int64, MIN_INT64, MAX_INT64.
      apply andb_true_iff. split; apply Z.leb_le; lia. }
    unfold sumStep at 2. simpl. rewrite Hint, H64.
    destruct (IH (mkSumCtx
                    (Double.round (r0 + Double.round (Item.quantity x)))
                    (i0 + Item.quantity x) (S c0) false false)
                eq_refl eq_refl) as (r & Hr).
    { simpl. unfold JS.MAX_SAFE_INTEGER. lia. }
    exists r. rewrite Hr. simpl. f_equal; lia.
Qed.

Lemma sum_quantity_exact (its : list Item.t) :
  total_magnitude its <= JS.MAX_SAFE_INTEGER ->
  exists v,
    sum_quantity its = Some v /\
    column_number (COALESCE v 0) = total its.
Proof.
  intros Hb. unfold sum_quantity.
  destruct (fold_sumStep_exact its (mkSumCtx 0 0 O false false)
              eq_refl eq_refl Hb) as (r & ->).
  unfold sumFinalize. simpl. destruct its as [|x l].
  - exists NULL. split; reflexivity.
  - exists (INTEGER (total (x :: l))). split; [reflexivity|].
    simpl. apply Double_round_exact.
    apply (safe_of_magnitude _ _ (total_le_magnitude (x :: l)) Hb).
Qed.

Lemma join_no_items (logs : list StockLog.t) : join_logs_items logs [] = [].
Proof. induction logs as [|l logs IH]; simpl; auto. Qed.

Lemma order_by_desc_nil {R : Type} (key : R -> string) (l : list R) :
  order_by_desc key l = [] -> l = [].
Proof.
  intros H. apply Permutation_nil. rewrite <- H.
  apply order_by_desc_perm.
Qed.

(** C7 (amended).  On a ready service whose quantities add up, in
    magnitude, to a safe integer (at most 2^53 - 1, so that [SUM]
    neither overflows its 64 bits nor reaches JavaScript rounded),
    [getDashboardStats] returns, with [totalQuantity] the sum of the
    quantities of the items that [getAllItems] returns and
    [totalItems] their number; when [getAllItems] returns no item the
    statistics are [{totalItems: 0, totalQuantity: 0, recentLogs: []}]. *)
Theorem getDashboardStats_totals (st : State) :
  ready st = true ->
  total_magnitude (item_rows st) <= JS.MAX_SAFE_INTEGER ->
  exists stats its,
    getDashboardStats st = (Ok stats, st) /\
    getAllItems st = (Ok its, st) /\
    totalQuantity stats = fold_right Z.add 0 (map Item.quantity its) /\
    totalItems stats = Z.of_nat (List.length its) /\
    (its = [] -> stats = mkDashboardStats 0 0 []).
Proof.
  intros Hready.
  destruct (ready_inv st Hready) as (its & iseq & logs & lseq & co & ->).
  run_service. intros Hb.
  destruct (sum_quantity_exact its Hb) as (v & -> & Hv).
  run_service. do 2 eexists.
  do 2 (split; [reflexivity|]). simpl.
  rewrite !or_num_0, Hv.
  split; [|split].
  - apply total_perm. symmetry. apply order_by_desc_perm.
  - f_equal. apply Permutation_length. symmetry. apply order_by_desc_perm.
  - intros H. apply order_by_desc_nil in H. subst its.
    now rewrite join_no_items.
Qed.

Lemma in_join_logs_items (logs : list StockLog.t) (its : list Item.t)
    (r : StockLog.t) :
  In r (join_logs_items logs its) <->
  exists l i, In l logs /\ In i its /\ StockLog.item_id l = Item.id i /\
              r = StockLog.set_item_name (Some (Item.name i)) l.
Proof.
  unfold join_logs_items, join_item_name. rewrite in_flat_map. split.
  - intros (l & Hl & Hr). apply in_map_iff in Hr.
    destruct Hr as (i & <- & Hi). apply filter_In in Hi.
    destruct Hi as [Hi E]. apply Z.eqb_eq in E. now exists l, i.
  - intros (l & i & Hl & Hi & E & ->). exists l. split; [exact Hl|].
    apply in_map_iff. exists i. split; [reflexivity|].
    apply filter_In. split; [exact Hi|]. now apply Z.eqb_eq.
Qed.


(** C4 (the code departs from the contract).  On a service that has
    not been initialized, [getStockLogsByItemId], [getRecentStockLogs]
    and [processStockMovement] throw 'Database not initialized' and
    leave the service uninitialized, whatever is on file and whether or
    not the file can be opened; [getItemById], like the other methods
    that start with [ensureInitialized], opens the store, creates the
    tables and answers. *)
Theorem ledger_methods_skip_initialization
    (file : Database) (openable : bool)
    (itemId limit quantity : Z) (type : MovementType) (note now : string) :
  let st := start file openable in
  getStockLogsByItemId itemId st = (Err DatabaseNotInitialized, st) /\
  getRecentStockLogs limit st = (Err DatabaseNotInitialized, st) /\
  processStockMovement itemId type quantity note now st
    = (Err DatabaseNotInitialized, st) /\
  fst (getItemById itemId (start no_tables true)) = Ok None /\
  ready (snd (getItemById itemId (start no_tables true))) = true.
Proof. repeat split. Qed.

(** *** Initialization *)

Lemma init_when_ready (st : State) :
  isReady st = true -> init st = (Ok tt, st).
Proof. destruct_state st; run_service; intros H; try discriminate H; reflexivity. Qed.

Lemma isReady_iff (st : State) :
  isReady st = true <-> isInitialized st = true /\ db st <> None.
Proof.
  destruct_state st; run_service; split; try intros [H1 H2];
    try split; congruence.
Qed.

Lemma ensureInitialized_lazy (st : State) :
  isReady st = false -> can_open st = true ->
  exists st',
    ensureInitialized st = (Ok tt, st') /\ ready st' = true /\
    item_rows st' = item_rows st /\ log_rows st' = log_rows st.
Proof.
  destruct_state st; run_service; intros H1 H2;
    try discriminate H1; try discriminate H2;
    eexists; repeat split.
Qed.

Lemma ensureInitialized_unavailable (st : State) :
  isReady st = false -> can_open st = false ->
  ensureInitialized st = (Err OpenFailed, start (warehouse_db st) false).
Proof.
  destruct_state st; run_service; intros H1 H2;
    try discriminate H1; try discriminate H2; reflexivity.
Qed.

(** *** Invariants over reachable states *)

Lemma Forall_update (P : Item.t -> Prop) (id q : Z) (l : list Item.t) :
  (forall i, P i -> P (Item.set_quantity q i)) ->
  Forall P l ->
  Forall P (map (fun i => if Item.id i =? id then Item.set_quantity q i else i) l).
Proof.
  intros Hq. induction 1 as [|x l Hx Hl IH]; simpl; constructor; auto.
  destruct (Item.id x =? id); auto.
Qed.

Lemma Forall_filter {A : Type} (P : A -> Prop) (f : A -> bool) (l : list A) :
  Forall P l -> Forall P (filter f l).
Proof.
  induction 1 as [|x l Hx Hl IH]; simpl; [constructor|].
  destruct (f x); auto.
Qed.

Lemma Forall_snoc {A : Type} (P : A -> Prop) (l : list A) (x : A) :
  Forall P l -> P x -> Forall P (l ++ [x]).
Proof. intros Hl Hx. apply Forall_app. split; [exact Hl|]. now constructor. Qed.

(** Closes the goals in which the rows are untouched, filtered,
    updated in place or extended by one row. *)
Ltac solve_rows :=
  first
    [ assumption
    | apply Forall_nil
    | apply Forall_filter; assumption
    | apply Forall_update; [intros ? ?; assumption | assumption]
    | apply Forall_snoc; [assumption|] ].

Lemma after_keeps_nonneg (c : Call) (st : State) :
  keeps_quantities_nonneg c ->
  Forall nonneg_quantity (item_rows st) ->
  Forall nonneg_quantity (item_rows (after c st)).
Proof.
  intros Hc.
  destruct c as [ | item | | | id q | | | | | | itemId ty q note now ].
  1-10: destruct_state st; run_service; case_sum; intros H; try solve_rows;
    unfold nonneg_quantity; simpl; try rewrite or_num_0; try exact Hc.
  destruct_state st; run_service; intros H; try solve_rows;
    destruct (find (fun i => Item.id i =? itemId) it) as [item|] eqn:Hfind;
    run_service; try solve_rows;
    (apply find_some in Hfind; destruct Hfind as [Hin _];
     rewrite Forall_forall in H; apply H in Hin; unfold nonneg_quantity in Hin;
     destruct ty; unfold MovementType_eqb, JS.Math_max;
     (apply Forall_update;
      [ intros ? _; unfold nonneg_quantity, JS.add; simpl in *;
        first [lia | apply Double_round_nonneg; lia]
      | now apply Forall_forall ])).
Qed.

Lemma after_keeps_positive (c : Call) (st : State) :
  moves_positive_quantities c ->
  Forall positive_quantity (log_rows st) ->
  Forall positive_quantity (log_rows (after c st)).
Proof.
  intros Hc.
  destruct c as [ | | | | | | log | | | | itemId ty q note now ].
  1-10: destruct_state st; run_service; case_sum; intros H; try solve_rows;
    unfold positive_quantity; simpl; try rewrite or_num_0; try exact Hc.
  destruct_state st; run_service; intros H; try solve_rows;
    destruct (find (fun i => Item.id i =? itemId) it) as [item|] eqn:Hfind;
    run_service; try solve_rows;
    unfold positive_quantity; simpl; rewrite or_num_0; exact Hc.
Qed.

Lemma after_tables_exist (c : Call) (st : State) :
  (isReady st = true -> tables_exist (warehouse_db st) = true) ->
  isReady (after c st) = true -> tables_exist (warehouse_db (after c st)) = true.
Proof.
  destruct c as [ | | | | | | | | | | itemId ty q note now ].
  1-10: destruct_state st; run_service; case_sum; intros H H'; auto.
  destruct_state st; run_service; intros H H'; auto;
    destruct (find (fun i => Item.id i =? itemId) it) as [item|] eqn:Hfind;
    revert H'; run_service; auto.
Qed.

Lemma reachable_ready (allowed : Call -> Prop) (st : State) :
  reachable allowed st -> isReady st = true -> ready st = true.
Proof.
  intros Hr Hi. unfold ready. rewrite Hi. simpl.
  induction Hr as [openable | c st Hr IH Hc | openable st Hr IH].
  - discriminate Hi.
  - now apply after_tables_exist.
  - discriminate Hi.
Qed.

(** C3 (amended).  In every state reached by calls that pass no
    negative quantity to [addItem], [updateItemQuantity] and
    [processStockMovement 'in'] (any call of the other methods, and any
    ['out'] movement), every item has a quantity [>= 0]. *)
Theorem quantities_nonneg_when_callers_comply (st : State) :
  reachable keeps_quantities_nonneg st ->
  forall i, In i (item_rows st) -> 0 <= Item.quantity i.
Proof.
  intros Hr. apply Forall_forall. change (Forall nonneg_quantity (item_rows st)).
  induction Hr as [openable | c st Hr IH Hc | openable st Hr IH].
  - constructor.
  - now apply after_keeps_nonneg.
  - exact IH.
Qed.

(** C9 (amended).  In every state reached by calls that pass a
    strictly positive quantity to [addStockLog] and
    [processStockMovement], every ledger entry has a strictly positive
    quantity. *)
Theorem ledger_positive_when_callers_comply (st : State) :
  reachable moves_positive_quantities st ->
  forall l, In l (log_rows st) -> 0 < StockLog.quantity l.
Proof.
  intros Hr. apply Forall_forall. change (Forall positive_quantity (log_rows st)).
  induction Hr as [openable | c st Hr IH Hc | openable st Hr IH].
  - constructor.
  - now apply after_keeps_positive.
  - exact IH.
Qed.

(** ** Worked examples *)

Lemma reachable_after_all (allowed : Call -> Prop) (cs : list Call) (st : State) :
  reachable allowed st -> Forall allowed cs -> reachable allowed (after_all cs st).
Proof.
  intros Hr Hcs. revert st Hr.
  induction Hcs as [|c cs Hc Hcs IH]; simpl; intros st Hr; [exact Hr|].
  apply IH. now constructor.
Qed.

(** With 8 in stock, taking 20 out. *)
Lemma processStockMovement_quantity_witness :
  ready stocked = true /\
  getItemById 1 stocked = (Ok (Some stocked_widget), stocked) /\
  JS.safe (Item.quantity stocked_widget - 20) = true /\
  exists st' item',
    processStockMovement 1 type_out 20 "damaged" "2024-02-01T10:00:00.000Z" stocked
      = (Ok tt, st') /\
    getItemById 1 st' = (Ok (Some item'), st') /\
    Item.quantity item' = Z.max 0 (Item.quantity stocked_widget - 20) /\
    0 <= Item.quantity item'.
Proof.
  refine (conj eq_refl (conj eq_refl (conj eq_refl _))).
  destruct (processStockMovement_quantity stocked 1 type_out 20 "damaged"
              "2024-02-01T10:00:00.000Z" stocked_widget eq_refl eq_refl)
    as (st' & item' & Hrun & Hget & _ & Hout & Hsign & _).
  exists st', item'.
  exact (conj Hrun (conj Hget (conj (Hout eq_refl eq_refl) (Hsign eq_refl)))).
Defined.

(** C1, as stated, fails: with 8 in stock, an ['in'] movement of -10
    leaves -2 in stock; and with 2^53 - 1 in stock, an ['in'] movement
    of 2 leaves 2^53, not 2^53 + 1. *)
Lemma processStockMovement_in_negative_quantity :
  (ready stocked = true /\
   getItemById 1 stocked = (Ok (Some stocked_widget), stocked) /\
   Item.quantity stocked_widget = 8 /\
   exists st' item',
     processStockMovement 1 type_in (-10) "" "2024-02-01T10:00:00.000Z" stocked
       = (Ok tt, st') /\
     getItemById 1 st' = (Ok (Some item'), st') /\
     Item.quantity item' = -2 /\
     Item.quantity item' < 0) /\
  (ready brimming = true /\
   exists item st' item',
     getItemById 1 brimming = (Ok (Some item), brimming) /\
     Item.quantity item = 9007199254740991 /\
     processStockMovement 1 type_in 2 "" "2024-02-01T10:00:00.000Z" brimming
       = (Ok tt, st') /\
     getItemById 1 st' = (Ok (Some item'), st') /\
     Item.quantity item' = 9007199254740992 /\
     Item.quantity item' <> Item.quantity item + 2).
Proof.
  split.
  - do 3 (split; [reflexivity|]).
    do 2 eexists. split; [vm_compute; reflexivity|].
    split; [vm_compute; reflexivity|]. split; [reflexivity|]. simpl. lia.
  - split; [reflexivity|].
    do 3 eexists. split; [vm_compute; reflexivity|].
    split; [reflexivity|]. split; [vm_compute; reflexivity|].
    split; [vm_compute; reflexivity|]. split; [reflexivity|].
    simpl. lia.
Qed.

Lemma processStockMovement_ledger_witness :
  ready stocked = true /\
  getItemById 1 stocked = (Ok (Some stocked_widget), stocked) /\
  exists st' entry item',
    processStockMovement 1 type_out 20 "damaged" "2024-02-01T10:00:00.000Z" stocked
      = (Ok tt, st') /\
    log_rows st' = log_rows stocked ++ [entry] /\
    getItemById 1 st' = (Ok (Some item'), st') /\
    Item.quantity item' = 0 /\
    StockLog.quantity entry = 20 /\
    StockLog.type entry = type_out.
Proof.
  refine (conj eq_refl (conj eq_refl _)).
  destruct (processStockMovement_ledger stocked 1 type_out 20 "damaged"
              "2024-02-01T10:00:00.000Z" stocked_widget eq_refl eq_refl)
    as (st' & entry & item' & before & logs' & Hrun & Hrows & _ & _ & _ & _
        & _ & _ & _ & _ & Hget & Hscenario).
  destruct (Hscenario eq_refl eq_refl eq_refl) as (Hq & He & Ht).
  exists st', entry, item'. repeat split; assumption.
Defined.

Lemma processStockMovement_NotFound_witness :
  ready stocked = true /\
  (fst (processStockMovement 7 type_in 1 "" "2024-02-01T10:00:00.000Z" stocked)
     = Err ItemNotFound <->
   (forall i, In i (item_rows stocked) -> Item.id i <> 7)) /\
  (fst (processStockMovement 7 type_in 1 "" "2024-02-01T10:00:00.000Z" stocked)
     = Err ItemNotFound ->
   snd (processStockMovement 7 type_in 1 "" "2024-02-01T10:00:00.000Z" stocked)
     = stocked).
Proof.
  exact (conj eq_refl
           (processStockMovement_NotFound stocked 7 type_in 1 ""
              "2024-02-01T10:00:00.000Z" eq_refl)).
Defined.

Lemma absent_item_update_delete_witness :
  ready stocked = true /\
  (forall i, In i (item_rows stocked) -> Item.id i <> 7) /\
  updateItemQuantity 7 3 stocked = (Ok tt, stocked) /\
  deleteItem 7 stocked = (Ok tt, stocked).
Proof.
  assert (Habsent : forall i, In i (item_rows stocked) -> Item.id i <> 7).
  { intros i Hi. vm_compute in Hi. destruct Hi as [<-|[]]. simpl. lia. }
  exact (conj eq_refl
           (conj Habsent (absent_item_update_delete stocked 7 3 eq_refl Habsent))).
Defined.

Lemma deleteItem_no_cascade_witness :
  ready moved = true /\
  exists st',
    deleteItem 1 moved = (Ok tt, st') /\
    log_rows st' = [damaged_entry] /\
    getStockLogsByItemId 1 st' = (Ok [damaged_entry], st') /\
    (forall i, In i (item_rows st') <-> In i (item_rows moved) /\ Item.id i <> 1).
Proof.
  refine (conj eq_refl _).
  destruct (deleteItem_no_cascade moved 1 eq_refl)
    as (st' & logs & Hrun & Hrows & Hbefore & Hafter & _ & Hitems & _).
  assert (E : (Ok logs, moved) = (Ok [damaged_entry], moved))
    by (rewrite <- Hbefore; reflexivity).
  injection E as ->.
  exists st'. split; [exact Hrun|]. split; [exact Hrows|].
  split; [exact Hafter|]. exact Hitems.
Defined.

Lemma getDashboardStats_totals_witness :
  ready moved = true /\
  total_magnitude (item_rows moved) <= JS.MAX_SAFE_INTEGER /\
  exists stats its,
    getDashboardStats moved = (Ok stats, moved) /\
    getAllItems moved = (Ok its, moved) /\
    totalQuantity stats = fold_right Z.add 0 (map Item.quantity its) /\
    totalItems stats = Z.of_nat (List.length its) /\
    (its = [] -> stats = mkDashboardStats 0 0 []).
Proof.
  assert (Hb : total_magnitude (item_rows moved) <= JS.MAX_SAFE_INTEGER)
    by (vm_compute; discriminate).
  exact (conj eq_refl (conj Hb (getDashboardStats_totals moved eq_refl Hb))).
Defined.

(** C7, as stated, fails: with two items of 2^62 in stock [SUM]
    overflows its 64 bits and [getDashboardStats] throws, while
    [getAllItems] returns both items; and with 2^53 and 1 in stock the
    total comes back as 2^53, one less than the sum. *)
Lemma getDashboardStats_integer_overflow :
  (reachable any_call overstocked /\
   ready overstocked = true /\
   getDashboardStats overstocked = (Err IntegerOverflow, overstocked) /\
   fst (getAllItems overstocked) = Ok (item_rows overstocked) /\
   map Item.quantity (item_rows overstocked)
     = [4611686018427387904; 4611686018427387904]) /\
  (reachable any_call heaped /\
   ready heaped = true /\
   exists stats its,
     getDashboardStats heaped = (Ok stats, heaped) /\
     getAllItems heaped = (Ok its, heaped) /\
     totalQuantity stats = 9007199254740992 /\
     fold_right Z.add 0 (map Item.quantity its) = 9007199254740993).
Proof.
  split.
  - split; [apply reachable_after_all; repeat constructor|]. repeat split.
  - split; [apply reachable_after_all; repeat constructor|].
    split; [reflexivity|]. do 2 eexists.
    split; [vm_compute; reflexivity|]. split; [vm_compute; reflexivity|].
    split; reflexivity.
Qed.



Lemma quantities_nonneg_witness :
  reachable keeps_quantities_nonneg moved /\
  forall i, In i (item_rows moved) -> 0 <= Item.quantity i.
Proof.
  assert (Hr : reachable keeps_quantities_nonneg moved).
  { apply reachable_call; [|exact I].
    apply reachable_after_all; [apply reachable_start|].
    repeat constructor. unfold widget. simpl. lia. }
  exact (conj Hr (quantities_nonneg_when_callers_comply moved Hr)).
Defined.

(** C3, as stated, fails: [updateItemQuantity 1 (-1)] stores -1. *)
Lemma quantity_invariant_broken_by_updateItemQuantity :
  ~ (forall st, reachable any_call st ->
       forall i, In i (item_rows st) -> 0 <= Item.quantity i).
Proof.
  intros H.
  assert (Hr : reachable any_call (after (call_updateItemQuantity 1 (-1)) stocked)).
  { apply reachable_call; [|exact I].
    apply reachable_after_all; repeat constructor. }
  specialize (H _ Hr (Item.set_quantity (-1) stocked_widget) (or_introl eq_refl)).
  simpl in H. lia.
Qed.

Lemma ledger_positive_witness :
  reachable moves_positive_quantities moved /\
  forall l, In l (log_rows moved) -> 0 < StockLog.quantity l.
Proof.
  assert (Hr : reachable moves_positive_quantities moved).
  { apply reachable_call; [|simpl; lia].
    apply reachable_after_all; [apply reachable_start|].
    repeat constructor. }
  exact (conj Hr (ledger_positive_when_callers_comply moved Hr)).
Defined.

(** C9, as stated, fails: an ['in'] movement of 0 logs quantity 0. *)
Lemma ledger_records_zero_quantity :
  ~ (forall st, reachable any_call st ->
       forall l, In l (log_rows st) -> 0 < StockLog.quantity l).
Proof.
  intros H.
  assert (Hr : reachable any_call
                 (after (call_processStockMovement 1 type_in 0 ""
                           "2024-02-01T10:00:00.000Z") stocked)).
  { apply reachable_call; [|exact I].
    apply reachable_after_all; repeat constructor. }
  specialize (H _ Hr
    (StockLog.mk 1 1 type_in 0 "" "2024-02-01T10:00:00.000Z" None)
    (or_introl eq_refl)).
  simpl in H. lia.
Qed.

(** * Further properties of the service *)

(** ** AUTOINCREMENT *)

Lemma fold_max_ge_seq (s : Z) (l : list Z) : s <= fold_right Z.max s l.
Proof. induction l as [|x l IH]; simpl; lia. Qed.

Lemma fold_max_ge_in (s k : Z) (l : list Z) :
  In k l -> k <= fold_right Z.max s l.
Proof.
  induction l as [|x l IH]; simpl; [contradiction|].
  intros [->|H]; [lia|]. apply IH in H. lia.
Qed.

Lemma next_rowid_above_seq {R : Type} (rowid : R -> Z) (t : Table R) :
  seq t < next_rowid rowid t.
Proof.
  unfold next_rowid. pose proof (fold_max_ge_seq (seq t) (map rowid (rows t))). lia.
Qed.

Lemma next_rowid_above_rows {R : Type} (rowid : R -> Z) (t : Table R) (r : R) :
  In r (rows t) -> rowid r < next_rowid rowid t.
Proof.
  intros H. unfold next_rowid.
  pose proof (fold_max_ge_in (seq t) (rowid r) (map rowid (rows t))
                (in_map rowid _ _ H)). lia.
Qed.

Lemma find_snoc_fresh (l : list Item.t) (x : Item.t) :
  (forall i, In i l -> Item.id i < Item.id x) ->
  find (fun i => Item.id i =? Item.id x) (l ++ [x]) = Some x.
Proof.
  induction l as [|y l IH]; simpl; intros H.
  - now rewrite Z.eqb_refl.
  - destruct (Z.eqb_spec (Item.id y) (Item.id x)) as [E|_].
    + specialize (H y (or_introl eq_refl)). lia.
    + apply IH. auto.
Qed.

(** X1.  On a ready service [addItem] returns a new id, larger than
    every id in the table and than the sequence; [getItemById] of that
    id then returns the row with exactly the fields that were passed;
    the other rows and the ledger are as before. *)
Theorem addItem_then_getItemById (st : State) (item : Item.t) :
  ready st = true ->
  exists id st',
    addItem item st = (Ok id, st') /\
    getItemById id st'
      = (Ok (Some (Item.mk id (Item.name item) (Item.sku item)
                     (Item.quantity item) (Item.location item)
                     (Item.description item) (Item.created_at item))),
         st') /\
    (forall i, In i (item_rows st) -> Item.id i < id) /\
    item_seq st < id /\
    item_rows st'
      = item_rows st ++
        [Item.mk id (Item.name item) (Item.sku item) (Item.quantity item)
           (Item.location item) (Item.description item) (Item.created_at item)] /\
    log_rows st' = log_rows st /\
    ready st' = true.
Proof.
  intros Hready.
  destruct (ready_inv st Hready) as (its & iseq & logs & lseq & co & ->).
  run_views. simpl.
  rewrite or_num_0, !or_str_empty.
  set (t := {| rows := its; seq := iseq |}).
  assert (Hfresh : forall i, In i its -> Item.id i < next_rowid Item.id t)
    by (intros i Hi; now apply (next_rowid_above_rows Item.id t)).
  do 2 eexists. split; [reflexivity|]. split.
  - f_equal. f_equal.
    apply (find_snoc_fresh its
             (Item.mk (next_rowid Item.id t) _ _ _ _ _ _)). exact Hfresh.
  - repeat split; try exact Hfresh.
    apply (next_rowid_above_seq Item.id t).
Qed.

(** X4.  On a ready service [getAllItems] returns every stored item
    exactly once, ordered by [created_at] with the most recent first,
    and changes nothing. *)
Theorem getAllItems_sorted_complete (st : State) :
  ready st = true ->
  exists its,
    getAllItems st = (Ok its, st) /\
    Permutation its (item_rows st) /\
    StronglySorted (not_before Item.created_at) its.
Proof.
  intros Hready.
  destruct (ready_inv st Hready) as (its & iseq & logs & lseq & co & ->).
  run_service. eexists. split; [reflexivity|]. split.
  - apply order_by_desc_perm.
  - apply order_by_desc_sorted.
Qed.

(** X5.  On a ready service [getStockLogsByItemId] returns exactly the
    ledger entries of that item (each one once, none of another item),
    ordered by timestamp with the most recent first, and changes
    nothing. *)
Theorem getStockLogsByItemId_sorted_complete (st : State) (itemId : Z) :
  ready st = true ->
  exists logs,
    getStockLogsByItemId itemId st = (Ok logs, st) /\
    Permutation logs
      (filter (fun l => StockLog.item_id l =? itemId) (log_rows st)) /\
    (forall l, In l logs <-> In l (log_rows st) /\ StockLog.item_id l = itemId) /\
    StronglySorted (not_before StockLog.timestamp) logs.
Proof.
  intros Hready.
  destruct (ready_inv st Hready) as (its & iseq & logs & lseq & co & ->).
  run_service. eexists. split; [reflexivity|].
  pose proof (order_by_desc_perm StockLog.timestamp
                (filter (fun l => StockLog.item_id l =? itemId) logs)) as Hp.
  split; [exact Hp|]. split.
  - intros l. split.
    + intros H. apply (Permutation_in _ Hp) in H. apply filter_In in H.
      destruct H as [H E]. apply Z.eqb_eq in E. auto.
    + intros [H E]. apply (Permutation_in _ (Permutation_sym Hp)).
      apply filter_In. split; [exact H|now apply Z.eqb_eq].
  - apply order_by_desc_sorted.
Qed.

Lemma find_update_other (id j q : Z) (l : list Item.t) :
  j <> id ->
  find (fun i => Item.id i =? j)
       (map (fun i => if Item.id i =? id then Item.set_quantity q i else i) l)
  = find (fun i => Item.id i =? j) l.
Proof.
  intros Hj. induction l as [|x l IH]; simpl; [reflexivity|].
  destruct (Z.eqb_spec (Item.id x) id) as [E|E]; simpl.
  - destruct (Z.eqb_spec (Item.id x) j) as [E'|E']; [congruence|exact IH].
  - now rewrite IH.
Qed.

(** X6.  On a ready service, for an item that exists,
    [updateItemQuantity] overwrites the quantity and nothing else:
    [getItemById] then returns the same item with the new quantity,
    every other id looks up as before, the number of items is the
    same, and no ledger entry is written. *)
Theorem updateItemQuantity_then_getItemById
    (st : State) (id newQuantity : Z) (item : Item.t) :
  ready st = true ->
  getItemById id st = (Ok (Some item), st) ->
  exists st',
    updateItemQuantity id newQuantity st = (Ok tt, st') /\
    getItemById id st'
      = (Ok (Some (Item.set_quantity newQuantity item)), st') /\
    (forall j, j <> id -> fst (getItemById j st') = fst (getItemById j st)) /\
    List.length (item_rows st') = List.length (item_rows st) /\
    item_ids st' = item_ids st /\
    log_rows st' = log_rows st.
Proof.
  intros Hready Hget.
  destruct (ready_inv st Hready) as (its & iseq & logs & lseq & co & ->).
  revert Hget. run_service. intros [= Hfind].
  eexists. split; [reflexivity|]. split.
  - now rewrite (find_update _ _ _ _ Hfind).
  - split; [intros j Hj; f_equal; now apply find_update_other|].
    split; [apply length_map|]. split; [|reflexivity].
    run_views. rewrite map_map. apply map_ext.
    intros i. now destruct (Item.id i =? id).
Qed.

Lemma find_filter_same (id : Z) (l : list Item.t) :
  find (fun i => Item.id i =? id) (filter (fun i => negb (Item.id i =? id)) l)
  = None.
Proof.
  induction l as [|x l IH]; simpl; [reflexivity|].
  destruct (Item.id x =? id) eqn:E; simpl; [exact IH|]. now rewrite E.
Qed.

Lemma filter_filter_same {A : Type} (f : A -> bool) (l : list A) :
  filter f (filter f l) = filter f l.
Proof.
  induction l as [|x l IH]; simpl; [reflexivity|].
  destruct (f x) eqn:E; simpl; [rewrite E; now f_equal|exact IH].
Qed.

(** X7.  On a ready service, after [deleteItem id] the item is gone
    ([getItemById id] returns null), and deleting it once more changes
    nothing and raises nothing. *)
Theorem deleteItem_then_getItemById (st : State) (id : Z) :
  ready st = true ->
  exists st',
    deleteItem id st = (Ok tt, st') /\
    getItemById id st' = (Ok None, st') /\
    deleteItem id st' = (Ok tt, st') /\
    (List.length (item_rows st') <= List.length (item_rows st))%nat.
Proof.
  intros Hready.
  destruct (ready_inv st Hready) as (its & iseq & logs & lseq & co & ->).
  run_service. eexists. split; [reflexivity|]. split.
  - now rewrite find_filter_same.
  - split; [now rewrite filter_filter_same|]. apply filter_length_le.
Qed.

(** ** Primary keys *)

Lemma keyed_insert {R : Type} (rowid : R -> Z) (l : list R) (s : Z) (r : R) :
  rowid r = next_rowid rowid (mkTable l s) ->
  keyed (map rowid l) s ->
  keyed (map rowid (l ++ [r])) (next_rowid rowid (mkTable l s)).
Proof.
  intros Hr (Hnd & Hb & Hs).
  pose proof (next_rowid_above_seq rowid (mkTable l s)) as Hseq. simpl in Hseq.
  rewrite map_app. simpl. rewrite Hr. repeat split.
  - apply NoDup_app; [exact Hnd | repeat constructor; auto |].
    intros k Hk [<-|[]]. rewrite Forall_forall in Hb. apply Hb in Hk. lia.
  - apply Forall_app. split.
    + apply Forall_forall. intros k Hk. rewrite Forall_forall in Hb.
      apply Hb in Hk. lia.
    + repeat constructor; lia.
  - lia.
Qed.

Lemma ids_update (id q : Z) (l : list Item.t) :
  map Item.id
      (map (fun i => if Item.id i =? id then Item.set_quantity q i else i) l)
  = map Item.id l.
Proof.
  rewrite map_map. apply map_ext. intros i. now destruct (Item.id i =? id).
Qed.

Lemma NoDup_map_filter {A B : Type} (g : A -> B) (f : A -> bool) (l : list A) :
  NoDup (map g l) -> NoDup (map g (filter f l)).
Proof.
  induction l as [|x l IH]; simpl; intros H; [constructor|].
  inversion H as [|? ? Hx Hl]; subst.
  destruct (f x); simpl; [|now apply IH].
  constructor; [|now apply IH].
  intros Hin. apply Hx. apply in_map_iff in Hin.
  destruct Hin as (y & Hy & Hf). apply filter_In in Hf.
  apply in_map_iff. exists y. tauto.
Qed.

Lemma keyed_filter {R : Type} (rowid : R -> Z) (f : R -> bool)
    (l : list R) (s : Z) :
  keyed (map rowid l) s -> keyed (map rowid (filter f l)) s.
Proof.
  intros (Hnd & Hb & Hs). repeat split; [now apply NoDup_map_filter| |exact Hs].
  apply Forall_forall. intros k Hk. rewrite Forall_forall in Hb. apply Hb.
  apply in_map_iff in Hk. destruct Hk as (y & <- & Hy).
  apply filter_In in Hy. apply in_map. tauto.
Qed.

(** Closes the key goals: rows untouched, one row inserted, quantities
    updated in place, rows deleted. *)
Ltac solve_keys :=
  first
    [ assumption
    | apply keyed_insert; [reflexivity | assumption]
    | rewrite ids_update; assumption
    | apply keyed_filter; assumption ].

Lemma after_keys_ok (c : Call) (st : State) :
  keys_ok st -> keys_ok (after c st).
Proof.
  unfold keys_ok.
  destruct c as [ | | | | | | | | | | itemId ty q note now ].
  1-10: destruct_state st; run_views; case_sum; intros [Hi Hl]; split;
    solve_keys.
  destruct_state st; run_views; intros [Hi Hl]; try (split; solve_keys);
    destruct (find (fun i => Item.id i =? itemId) it) as [item|] eqn:Hfind;
    run_service; split; solve_keys.
Qed.

Lemma reachable_keys_ok (allowed : Call -> Prop) (st : State) :
  reachable allowed st -> keys_ok st.
Proof.
  induction 1 as [openable | c st Hr IH Hc | openable st Hr IH].
  - repeat split; try constructor; reflexivity.
  - now apply after_keys_ok.
  - exact IH.
Qed.

Lemma find_unique (id : Z) (l : list Item.t) (i j : Item.t) :
  NoDup (map Item.id l) -> In i l -> In j l ->
  Item.id i = Item.id j -> i = j.
Proof.
  induction l as [|x l IH]; simpl; [contradiction|].
  intros Hnd. inversion Hnd as [|? ? Hx Hl]; subst.
  intros [->|Hi] [->|Hj] E; auto.
  - exfalso. apply Hx. rewrite E. now apply in_map.
  - exfalso. apply Hx. rewrite <- E. now apply in_map.
Qed.

(** X2.  In every state the application can reach, whatever calls are
    made, ids work as primary keys: no two items and no two ledger
    entries share an id, every id is positive, none exceeds the
    sequence of its table, and two stored items with the same id are
    the same row. *)
Theorem primary_keys_are_unique (st : State) :
  reachable any_call st ->
  NoDup (item_ids st) /\
  NoDup (log_ids st) /\
  (forall i, In i (item_rows st) -> 0 < Item.id i <= item_seq st) /\
  (forall l, In l (log_rows st) -> 0 < StockLog.id l <= log_seq st) /\
  (forall i j, In i (item_rows st) -> In j (item_rows st) ->
     Item.id i = Item.id j -> i = j).
Proof.
  intros Hr. destruct (reachable_keys_ok _ _ Hr) as [(Hi & Hib & _) (Hl & Hlb & _)].
  repeat split; try assumption.
  - rewrite Forall_forall in Hib. apply Hib. now apply in_map.
  - rewrite Forall_forall in Hib. apply Hib. now apply in_map.
  - rewrite Forall_forall in Hlb. apply Hlb. now apply in_map.
  - rewrite Forall_forall in Hlb. apply Hlb. now apply in_map.
  - intros i j. now apply (find_unique (Item.id i)).
Qed.

Lemma find_snoc_other (l : list Item.t) (x : Item.t) (id : Z) :
  Item.id x <> id ->
  find (fun i => Item.id i =? id) (l ++ [x]) = find (fun i => Item.id i =? id) l.
Proof.
  intros Hx. induction l as [|y l IH]; simpl.
  - now destruct (Z.eqb_spec (Item.id x) id).
  - now rewrite IH.
Qed.

(** X3.  The id of a deleted item is never handed out again: on a
    ready, reachable state, deleting an item and then adding any item
    gives the new item a larger id, and the deleted id still looks up
    as null. *)
Theorem deleted_id_is_not_reused (st : State) (old new : Item.t) :
  reachable any_call st ->
  ready st = true ->
  In old (item_rows st) ->
  exists st1 st2 id,
    deleteItem (Item.id old) st = (Ok tt, st1) /\
    addItem new st1 = (Ok id, st2) /\
    Item.id old < id /\
    getItemById (Item.id old) st2 = (Ok None, st2).
Proof.
  intros Hr Hready Hold.
  destruct (reachable_keys_ok _ _ Hr) as [(_ & Hib & _) _].
  rewrite Forall_forall in Hib.
  assert (Hle : Item.id old <= item_seq st) by (apply Hib; now apply in_map).
  clear Hib Hr. revert Hle Hold.
  destruct (ready_inv st Hready) as (its & iseq & logs & lseq & co & ->).
  run_views. intros Hle Hold.
  do 3 eexists. do 2 (split; [reflexivity|]). split.
  - match goal with
    | |- _ < next_rowid ?f ?t => pose proof (next_rowid_above_seq f t) as Hseq
    end.
    simpl in Hseq. lia.
  - rewrite find_snoc_other; [now rewrite find_filter_same|]. simpl.
    match goal with
    | |- next_rowid ?f ?t <> _ => pose proof (next_rowid_above_seq f t) as Hseq
    end.
    simpl in Hseq. lia.
Qed.

(** ** What the reading methods leave alone *)

(** X8.  [init], [getAllItems], [getItemById], [getStockLogsByItemId],
    [getRecentStockLogs] and [getDashboardStats] never change a row or
    a sequence of either table, in any state: ready or not, whether
    they return or throw, and also when they create the tables on the
    way. *)
Theorem reading_methods_change_no_row (c : Call) (st : State) :
  reads_only c = true ->
  item_rows (after c st) = item_rows st /\
  log_rows (after c st) = log_rows st /\
  item_seq (after c st) = item_seq st /\
  log_seq (after c st) = log_seq st.
Proof.
  destruct c; intros Hc; try discriminate Hc;
    destruct_state st; run_views; case_sum; repeat split.
Qed.

(** X9.  The ledger is append-only: whatever method is called, in
    whatever state, the ledger afterwards is the ledger before followed
    by at most one new entry; no entry is ever changed or removed. *)
Theorem ledger_is_append_only (c : Call) (st : State) :
  exists suffix,
    log_rows (after c st) = log_rows st ++ suffix /\
    (List.length suffix <= 1)%nat.
Proof.
  destruct c as [ | | | | | | | | | | itemId ty q note now ].
  1-10: destruct_state st; run_service; case_sum;
    first [ exists []; split; [now rewrite app_nil_r | simpl; lia]
          | eexists; split; [reflexivity | simpl; lia] ].
  destruct_state st; run_service;
    try (exists []; split; [now rewrite app_nil_r | simpl; lia]);
    destruct (find (fun i => Item.id i =? itemId) it) as [item|] eqn:Hfind;
    run_service;
    first [ exists []; split; [now rewrite app_nil_r | simpl; lia]
          | eexists; split; [reflexivity | simpl; lia] ].
Qed.

(** ** Initialization *)

(** X10.  On a service that is not ready, [init] either opens the
    file, creates the tables that are missing, leaves every existing
    row and sequence as it was and makes the service ready; or, when
    the file cannot be opened, throws and leaves the service with
    [db = null], [isInitialized = false] and the file untouched. *)
Theorem init_opens_or_resets (st : State) :
  isReady st = false ->
  if can_open st
  then exists st',
         init st = (Ok tt, st') /\ ready st' = true /\
         item_rows st' = item_rows st /\ log_rows st' = log_rows st /\
         item_seq st' = item_seq st /\ log_seq st' = log_seq st
  else init st = (Err OpenFailed, start (warehouse_db st) false).
Proof.
  destruct_state st; run_views; intros H; try discriminate H;
    try reflexivity; eexists; repeat split.
Qed.

(** X11.  What is stored survives a restart: on a new service instance
    over the file of a ready one, [getAllItems], [getItemById] and
    [getDashboardStats] initialize the service themselves and answer
    exactly as the old instance did. *)
Theorem data_survives_restart (st : State) (id : Z) :
  ready st = true ->
  let st0 := start (warehouse_db st) true in
  fst (getAllItems st0) = fst (getAllItems st) /\
  fst (getItemById id st0) = fst (getItemById id st) /\
  fst (getDashboardStats st0) = fst (getDashboardStats st) /\
  ready (snd (getItemById id st0)) = true /\
  warehouse_db (snd (getItemById id st0)) = warehouse_db st.
Proof.
  intros Hready.
  destruct (ready_inv st Hready) as (its & iseq & logs & lseq & co & ->).
  run_service. case_sum; repeat split.
Qed.

(** X12.  When the service is not ready and the file cannot be opened,
    each of the seven methods that start with [ensureInitialized]
    throws the error of the failed open, writes nothing and leaves the
    service uninitialized. *)
Theorem methods_throw_when_store_cannot_open
    (st : State) (item : Item.t) (log : StockLog.t) (id q : Z) :
  isReady st = false ->
  can_open st = false ->
  let st' := start (warehouse_db st) false in
  addItem item st = (Err OpenFailed, st') /\
  getAllItems st = (Err OpenFailed, st') /\
  getItemById id st = (Err OpenFailed, st') /\
  updateItemQuantity id q st = (Err OpenFailed, st') /\
  deleteItem id st = (Err OpenFailed, st') /\
  addStockLog log st = (Err OpenFailed, st') /\
  getDashboardStats st = (Err OpenFailed, st').
Proof.
  destruct_state st; run_service; intros H1 H2;
    try discriminate H1; try discriminate H2; repeat split.
Qed.

(** ** Stock movements *)

(** [processStockMovement] on a ready state, for an item that is found. *)
Lemma processStockMovement_found
    (its : list Item.t) (iseq : Z) (logs : list StockLog.t) (lseq : Z)
    (co : bool) (itemId : Z) (ty : MovementType) (q : Z) (note now : string)
    (item : Item.t) :
  find (fun i => Item.id i =? itemId) its = Some item ->
  processStockMovement itemId ty q note now
    (mkState (mkDatabase (Some (mkTable its iseq)) (Some (mkTable logs lseq)))
       co (Some Connection) true)
  = (Ok tt,
     mkState
       (mkDatabase
          (Some (mkTable
             (map (fun i =>
                     if Item.id i =? itemId
                     then Item.set_quantity
                            (match ty with
                             | type_in => JS.add (Item.quantity item) q
                             | type_out =>
                                 Z.max 0 (JS.sub (Item.quantity item) q)
                             end) i
                     else i) its)
             iseq))
          (Some (mkTable
             (logs ++
              [StockLog.mk (next_rowid StockLog.id (mkTable logs lseq))
                 itemId ty q note now None])
             (next_rowid StockLog.id (mkTable logs lseq)))))
       co (Some Connection) true).
Proof.
  intros Hfind. run_service. rewrite Hfind.
  destruct ty; run_service; unfold MovementType_eqb, JS.Math_max; simpl;
    now rewrite or_num_0, or_str_empty.
Qed.

(** X13.  On a ready service, for an item that exists,
    [processStockMovement] changes the quantity of that item and no
    other field of it, leaves every other item as it was, and neither
    adds nor removes an item. *)
Theorem processStockMovement_touches_one_quantity
    (st : State) (itemId : Z) (ty : MovementType) (q : Z) (note now : string)
    (item : Item.t) :
  ready st = true ->
  getItemById itemId st = (Ok (Some item), st) ->
  exists st' item',
    processStockMovement itemId ty q note now st = (Ok tt, st') /\
    getItemById itemId st' = (Ok (Some item'), st') /\
    item' = Item.set_quantity (Item.quantity item') item /\
    (forall j, j <> itemId ->
       fst (getItemById j st') = fst (getItemById j st)) /\
    item_ids st' = item_ids st /\
    item_seq st' = item_seq st.
Proof.
  intros Hready Hget.
  destruct (ready_inv st Hready) as (its & iseq & logs & lseq & co & ->).
  assert (Hfind : find (fun i => Item.id i =? itemId) its = Some item)
    by (revert Hget; run_service; now intros [= ->]).
  rewrite (processStockMovement_found _ _ _ _ _ _ ty q note now _ Hfind).
  do 2 eexists. split; [reflexivity|]. run_views.
  rewrite (find_update _ _ _ _ Hfind). split; [reflexivity|].
  split; [reflexivity|].
  split; [intros j Hj; f_equal; now apply find_update_other|].
  split; [apply ids_update|reflexivity].
Qed.

(** X14.  How two opposite movements of the same quantity [q] compose
    on an item with [Q] in stock, when [|Q| + |q|] is a safe integer
    (so that no step is rounded): ['in'] then ['out'] leaves
    [max 0 Q] (so [Q] again whenever [Q >= 0]); ['out'] then ['in']
    leaves [max Q q], which is [Q] only if [q <= Q]: stock that was
    clamped away is not given back.  Either way the ledger has two
    more entries. *)
Theorem opposite_movements_compose
    (st : State) (itemId q : Z) (n1 t1 n2 t2 : string) (item : Item.t) :
  ready st = true ->
  getItemById itemId st = (Ok (Some item), st) ->
  JS.safe (Z.abs (Item.quantity item) + Z.abs q) = true ->
  (exists st1 st2 item2,
     processStockMovement itemId type_in q n1 t1 st = (Ok tt, st1) /\
     processStockMovement itemId type_out q n2 t2 st1 = (Ok tt, st2) /\
     getItemById itemId st2 = (Ok (Some item2), st2) /\
     Item.quantity item2 = Z.max 0 (Item.quantity item) /\
     List.length (log_rows st2) = (List.length (log_rows st) + 2)%nat) /\
  (exists st1 st2 item2,
     processStockMovement itemId type_out q n1 t1 st = (Ok tt, st1) /\
     processStockMovement itemId type_in q n2 t2 st1 = (Ok tt, st2) /\
     getItemById itemId st2 = (Ok (Some item2), st2) /\
     Item.quantity item2 = Z.max (Item.quantity item) q /\
     List.length (log_rows st2) = (List.length (log_rows st) + 2)%nat).
Proof.
  intros Hready Hget Hsafe.
  assert (Hb : Z.abs (Item.quantity item) + Z.abs q <= JS.MAX_SAFE_INTEGER).
  { unfold JS.safe in Hsafe. apply andb_true_iff in Hsafe.
    destruct Hsafe as [_ H]. now apply Z.leb_le in H. }
  assert (E1 : JS.add (Item.quantity item) q = Item.quantity item + q).
  { apply Double_round_exact. apply (safe_of_magnitude _ (Z.abs (Item.quantity item) + Z.abs q));
      [lia|exact Hb]. }
  assert (E2 : JS.sub (Item.quantity item + q) q = Item.quantity item).
  { unfold JS.sub. rewrite Double_round_exact; [lia|].
    apply (safe_of_magnitude _ (Z.abs (Item.quantity item) + Z.abs q));
      [lia|exact Hb]. }
  assert (E3 : JS.sub (Item.quantity item) q = Item.quantity item - q).
  { apply Double_round_exact. apply (safe_of_magnitude _ (Z.abs (Item.quantity item) + Z.abs q));
      [lia|exact Hb]. }
  assert (E4 : JS.add (Z.max 0 (Item.quantity item - q)) q
               = Z.max (Item.quantity item) q).
  { unfold JS.add. rewrite Double_round_exact; [lia|].
    apply (safe_of_magnitude _ (Z.abs (Item.quantity item) + Z.abs q));
      [lia|exact Hb]. }
  destruct (ready_inv st Hready) as (its & iseq & logs & lseq & co & ->).
  assert (Hfind : find (fun i => Item.id i =? itemId) its = Some item)
    by (revert Hget; run_service; now intros [= ->]).
  split.
  - pose proof (find_update _ (JS.add (Item.quantity item) q) _ _ Hfind)
      as Hfind1.
    pose proof (find_update _
                  (Z.max 0 (JS.sub (JS.add (Item.quantity item) q) q))
                  _ _ Hfind1) as Hfind2.
    do 3 eexists.
    split; [apply (processStockMovement_found _ _ _ _ _ _ type_in); exact Hfind|].
    split; [apply (processStockMovement_found _ _ _ _ _ _ type_out); exact Hfind1|].
    run_service. simpl Item.quantity. rewrite Hfind2.
    split; [reflexivity|]. split; [simpl; now rewrite E1, E2|].
    rewrite !length_app. simpl. lia.
  - pose proof (find_update _ (Z.max 0 (JS.sub (Item.quantity item) q)) _ _ Hfind)
      as Hfind1.
    pose proof (find_update _
                  (JS.add (Z.max 0 (JS.sub (Item.quantity item) q)) q)
                  _ _ Hfind1) as Hfind2.
    do 3 eexists.
    split; [apply (processStockMovement_found _ _ _ _ _ _ type_out); exact Hfind|].
    split; [apply (processStockMovement_found _ _ _ _ _ _ type_in); exact Hfind1|].
    run_service. simpl Item.quantity. rewrite Hfind2.
    split; [reflexivity|]. split; [simpl; now rewrite E3, E4|].
    rewrite !length_app. simpl. lia.
Qed.

(** ** The dashboard *)

Lemma total_snoc (l : list Item.t) (x : Item.t) :
  total (l ++ [x]) = total l + Item.quantity x.
Proof. unfold total. induction l as [|y l IH]; simpl; lia. Qed.

Lemma total_update_absent (id q : Z) (l : list Item.t) :
  ~ In id (map Item.id l) ->
  total (map (fun i => if Item.id i =? id then Item.set_quantity q i else i) l)
  = total l.
Proof.
  intros H. f_equal. apply update_absent. intros i Hi E. apply H.
  rewrite <- E. now apply in_map.
Qed.

Lemma total_update_unique (id q : Z) (l : list Item.t) (item : Item.t) :
  NoDup (map Item.id l) ->
  find (fun i => Item.id i =? id) l = Some item ->
  total (map (fun i => if Item.id i =? id then Item.set_quantity q i else i) l)
  = total l - Item.quantity item + q.
Proof.
  induction l as [|x l IH]; simpl; [discriminate|].
  intros Hnd. inversion Hnd as [|? ? Hx Hl]; subst.
  destruct (Z.eqb_spec (Item.id x) id) as [E|E].
  - intros [= ->]. subst id.
    change (Item.quantity (Item.set_quantity q item)
            + total (map (fun i => if Item.id i =? Item.id item
                                   then Item.set_quantity q i else i) l)
            = Item.quantity item + total l - Item.quantity item + q).
    rewrite total_update_absent by exact Hx. simpl. lia.
  - intros Hfind.
    change (Item.quantity x
            + total (map (fun i => if Item.id i =? id
                                   then Item.set_quantity q i else i) l)
            = Item.quantity x + total l - Item.quantity item + q).
    rewrite (IH Hl Hfind). lia.
Qed.

Lemma total_magnitude_snoc (l : list Item.t) (x : Item.t) :
  total_magnitude (l ++ [x]) = total_magnitude l + Z.abs (Item.quantity x).
Proof. unfold total_magnitude. induction l as [|y l IH]; simpl; lia. Qed.

Lemma total_magnitude_update_unique
    (id q : Z) (l : list Item.t) (item : Item.t) :
  NoDup (map Item.id l) ->
  find (fun i => Item.id i =? id) l = Some item ->
  total_magnitude
    (map (fun i => if Item.id i =? id then Item.set_quantity q i else i) l)
  = total_magnitude l - Z.abs (Item.quantity item) + Z.abs q.
Proof.
  induction l as [|x l IH]; simpl; [discriminate|].
  intros Hnd. inversion Hnd as [|? ? Hx Hl]; subst.
  destruct (Z.eqb_spec (Item.id x) id) as [E|E].
  - intros [= ->]. subst id.
    rewrite update_absent.
    + unfold total_magnitude. simpl. lia.
    + intros i Hi Ei. apply Hx. rewrite <- Ei. now apply in_map.
  - intros Hfind.
    change (Z.abs (Item.quantity x)
            + total_magnitude
                (map (fun i => if Item.id i =? id
                               then Item.set_quantity q i else i) l)
            = Z.abs (Item.quantity x) + total_magnitude l
              - Z.abs (Item.quantity item) + Z.abs q).
    rewrite (IH Hl Hfind). lia.
Qed.

Lemma magnitude_of_found (id : Z) (l : list Item.t) (item : Item.t) :
  find (fun i => Item.id i =? id) l = Some item ->
  Z.abs (Item.quantity item) <= total_magnitude l.
Proof.
  intros H. apply find_some in H. destruct H as [Hin _].
  unfold total_magnitude. induction l as [|x l IH]; [contradiction|].
  simpl. pose proof (total_magnitude_nonneg l) as Hl.
  unfold total_magnitude in Hl.
  destruct Hin as [->|Hin]; [lia|]. apply IH in Hin. lia.
Qed.

(** [getDashboardStats] on a ready state whose quantities add up
    within the safe range. *)
Lemma getDashboardStats_within_range
    (its : list Item.t) (iseq : Z) (logs : list StockLog.t) (lseq : Z)
    (co : bool) :
  total_magnitude its <= JS.MAX_SAFE_INTEGER ->
  let st := mkState (mkDatabase (Some (mkTable its iseq))
                                (Some (mkTable logs lseq)))
                    co (Some Connection) true in
  getDashboardStats st
  = (Ok (mkDashboardStats
           (Z.of_nat (List.length its)) (total its)
           (limit_rows 5
              (order_by_desc StockLog.timestamp (join_logs_items logs its)))),
     st).
Proof.
  intros Hb st. subst st. run_service.
  destruct (sum_quantity_exact its Hb) as (v & -> & Hv).
  run_service. now rewrite !or_num_0, Hv.
Qed.

(** X15.  On a ready service, adding an item raises the dashboard's
    [totalItems] by one and its [totalQuantity] by the quantity of the
    new item, as long as the magnitudes of all quantities, the new one
    included, add up to a safe integer (at most 2^53 - 1). *)
Theorem getDashboardStats_after_addItem (st : State) (item : Item.t) :
  ready st = true ->
  total_magnitude (item_rows st) + Z.abs (Item.quantity item)
    <= JS.MAX_SAFE_INTEGER ->
  exists stats id st' stats',
    getDashboardStats st = (Ok stats, st) /\
    addItem item st = (Ok id, st') /\
    getDashboardStats st' = (Ok stats', st') /\
    totalItems stats' = totalItems stats + 1 /\
    totalQuantity stats' = totalQuantity stats + Item.quantity item.
Proof.
  intros Hready.
  destruct (ready_inv st Hready) as (its & iseq & logs & lseq & co & ->).
  cbn [item_rows warehouse_db items rows]. intros Hb.
  assert (Hb0 : total_magnitude its <= JS.MAX_SAFE_INTEGER) by lia.
  rewrite (getDashboardStats_within_range its iseq logs lseq co Hb0).
  do 4 eexists. split; [reflexivity|].
  split; [run_service; rewrite or_num_0, !or_str_empty; reflexivity|].
  rewrite getDashboardStats_within_range
    by (rewrite total_magnitude_snoc; exact Hb).
  split; [reflexivity|]. simpl.
  rewrite total_snoc, length_app. simpl. split; lia.
Qed.

(** X16.  On a ready state that the application can reach, a stock
    movement of [q] on an existing item with [Q] in stock leaves
    [totalItems] as it is and moves [totalQuantity] by exactly what the
    item's quantity moved: up by [q] for ['in'], down by [min Q q] for
    ['out']; this as long as the magnitudes of all quantities and of
    [q] add up to a safe integer (at most 2^53 - 1). *)
Theorem getDashboardStats_after_processStockMovement
    (st : State) (itemId : Z) (ty : MovementType) (q : Z) (note now : string)
    (item : Item.t) :
  reachable any_call st ->
  ready st = true ->
  getItemById itemId st = (Ok (Some item), st) ->
  total_magnitude (item_rows st) + Z.abs q <= JS.MAX_SAFE_INTEGER ->
  exists stats st' stats',
    getDashboardStats st = (Ok stats, st) /\
    processStockMovement itemId ty q note now st = (Ok tt, st') /\
    getDashboardStats st' = (Ok stats', st') /\
    totalItems stats' = totalItems stats /\
    totalQuantity stats' =
      match ty with
      | type_in => totalQuantity stats + q
      | type_out => totalQuantity stats - Z.min (Item.quantity item) q
      end.
Proof.
  intros Hr Hready Hget.
  destruct (reachable_keys_ok _ _ Hr) as [(Hnd & _) _]. clear Hr.
  revert Hnd Hget.
  destruct (ready_inv st Hready) as (its & iseq & logs & lseq & co & ->).
  cbn [item_rows warehouse_db items rows]. intros Hnd Hget Hb.
  assert (Hfind : find (fun i => Item.id i =? itemId) its = Some item)
    by (revert Hget; run_service; now intros [= ->]).
  assert (Hnd' : NoDup (map Item.id its)) by (revert Hnd; now run_views).
  pose proof (magnitude_of_found _ _ _ Hfind) as HQ.
  pose proof (total_magnitude_nonneg its) as Hpos.
  set (newQuantity := match ty with
                      | type_in => JS.add (Item.quantity item) q
                      | type_out => Z.max 0 (JS.sub (Item.quantity item) q)
                      end).
  assert (Hnew : newQuantity = match ty with
                               | type_in => Item.quantity item + q
                               | type_out => Z.max 0 (Item.quantity item - q)
                               end).
  { unfold newQuantity, JS.add, JS.sub.
    destruct ty; rewrite Double_round_exact; try reflexivity;
      apply (safe_of_magnitude _ (total_magnitude its + Z.abs q));
      try exact Hb; lia. }
  rewrite (getDashboardStats_within_range its iseq logs lseq co ltac:(lia)).
  rewrite (processStockMovement_found _ _ _ _ _ _ ty q note now _ Hfind).
  fold newQuantity.
  do 3 eexists. do 2 (split; [reflexivity|]).
  rewrite getDashboardStats_within_range.
  - split; [reflexivity|]. simpl. rewrite length_map.
    split; [reflexivity|].
    rewrite (total_update_unique _ _ _ _ Hnd' Hfind), Hnew.
    destruct ty; lia.
  - rewrite (total_magnitude_update_unique _ _ _ _ Hnd' Hfind), Hnew.
    destruct ty; lia.
Qed.

Lemma in_limit_rows {R : Type} (n : Z) (l : list R) (r : R) :
  In r (limit_rows n l) -> In r l.
Proof.
  unfold limit_rows. destruct (n <? 0); [auto|].
  intros H. rewrite <- (firstn_skipn (Z.to_nat n) l). apply in_or_app. now left.
Qed.

(** X17.  On a ready service, whenever [getDashboardStats] returns,
    it has changed nothing, it shows at most five recent movements,
    and each one carries the name of a stored item whose id is the
    entry's [item_id].  It returns whenever the quantities add up, in
    magnitude, to a safe integer (it throws when [SUM] overflows). *)
Theorem getDashboardStats_recentLogs (st : State) :
  ready st = true ->
  (forall stats st',
     getDashboardStats st = (Ok stats, st') ->
     st' = st /\
     (List.length (recentLogs stats) <= 5)%nat /\
     (forall r, In r (recentLogs stats) ->
        exists i, In i (item_rows st) /\
                  Item.id i = StockLog.item_id r /\
                  StockLog.item_name r = Some (Item.name i))) /\
  (total_magnitude (item_rows st) <= JS.MAX_SAFE_INTEGER ->
   exists stats, getDashboardStats st = (Ok stats, st)).
Proof.
  intros Hready.
  destruct (ready_inv st Hready) as (its & iseq & logs & lseq & co & ->).
  split.
  - intros stats st'. run_service.
    destruct (sum_quantity its) as [v|]; run_service; [|discriminate].
    intros [= <- <-]. split; [reflexivity|]. cbn [recentLogs]. split.
    + unfold limit_rows. change (5 <? 0) with false. cbv iota.
      apply (firstn_le_length (Z.to_nat 5)).
    + intros r Hr. apply in_limit_rows in Hr.
      apply (Permutation_in _ (order_by_desc_perm _ _)) in Hr.
      apply in_join_logs_items in Hr.
      destruct Hr as (l & i & _ & Hi & E & ->). exists i. simpl.
      split; [exact Hi|]. split; [now symmetry|reflexivity].
  - cbn [item_rows warehouse_db items rows]. intros Hb. eexists.
    apply (getDashboardStats_within_range its iseq logs lseq co Hb).
Qed.

(** ** Ledger entries written directly *)

Lemma join_snoc (logs : list StockLog.t) (its : list Item.t) (l : StockLog.t) :
  join_logs_items (logs ++ [l]) its
  = join_logs_items logs its ++ join_item_name its l.
Proof.
  unfold join_logs_items. rewrite flat_map_app. simpl. now rewrite app_nil_r.
Qed.

Lemma join_item_name_absent (its : list Item.t) (l : StockLog.t) :
  (forall i, In i its -> Item.id i <> StockLog.item_id l) ->
  join_item_name its l = [].
Proof.
  intros H. unfold join_item_name.
  induction its as [|x its IH]; simpl; [reflexivity|].
  destruct (Z.eqb_spec (StockLog.item_id l) (Item.id x)) as [E|E].
  - exfalso. apply (H x); [now left|now symmetry].
  - apply IH. intros i Hi. apply H. now right.
Qed.

(** X18.  On a ready service [addStockLog] appends one entry, with a
    new id and the item id, type, quantity, note and timestamp that
    were passed, and changes no item: whatever is logged this way,
    every stored quantity stays as it was.  It does not check that the
    item exists: an entry for an id that no item has is stored and
    [getStockLogsByItemId] returns it, while [getRecentStockLogs]
    answers as before. *)
Theorem addStockLog_appends_only (st : State) (log : StockLog.t) :
  ready st = true ->
  exists id st',
    addStockLog log st = (Ok id, st') /\
    log_rows st'
      = log_rows st ++
        [StockLog.mk id (StockLog.item_id log) (StockLog.type log)
           (StockLog.quantity log) (StockLog.note log)
           (StockLog.timestamp log) None] /\
    (forall l, In l (log_rows st) -> StockLog.id l < id) /\
    item_rows st' = item_rows st /\
    ((forall i, In i (item_rows st) -> Item.id i <> StockLog.item_id log) ->
     (exists logs,
        getStockLogsByItemId (StockLog.item_id log) st' = (Ok logs, st') /\
        In (StockLog.mk id (StockLog.item_id log) (StockLog.type log)
              (StockLog.quantity log) (StockLog.note log)
              (StockLog.timestamp log) None) logs) /\
     forall n, fst (getRecentStockLogs n st') = fst (getRecentStockLogs n st)).
Proof.
  intros Hready.
  destruct (ready_inv st Hready) as (its & iseq & logs & lseq & co & ->).
  run_service. rewrite or_num_0, or_str_empty.
  set (t := {| rows := logs; seq := lseq |}).
  do 2 eexists. do 2 (split; [reflexivity|]).
  split; [intros l Hl; now apply (next_rowid_above_rows StockLog.id t)|].
  split; [reflexivity|].
  intros Habsent. split.
  - eexists. split; [reflexivity|].
    apply (Permutation_in _ (Permutation_sym (order_by_desc_perm _ _))).
    apply filter_In. split; [apply in_or_app; right; now left|].
    simpl. apply Z.eqb_refl.
  - intros n. rewrite join_snoc, join_item_name_absent, app_nil_r;
      [reflexivity | exact Habsent].
Qed.

(** ** Sample data *)

Lemma order_by_desc_nonempty {R : Type} (key : R -> string) (l : list R) :
  l <> [] ->
  (0 <? Z.of_nat (List.length (order_by_desc key l))) = true.
Proof.
  intros H. rewrite (Permutation_length (order_by_desc_perm key l)).
  destruct l; [congruence|]. apply Z.ltb_lt. simpl. lia.
Qed.

(** X19.  [addSampleData] never throws, in any state, and when the
    inventory already holds an item it adds nothing: every item and
    every ledger entry is as before. *)
Theorem addSampleData_skips_existing_data (clock : SampleClock) (st : State) :
  fst (addSampleData clock st) = Ok tt /\
  (item_rows st <> [] ->
   item_rows (snd (addSampleData clock st)) = item_rows st /\
   log_rows (snd (addSampleData clock st)) = log_rows st).
Proof.
  split.
  - unfold addSampleData, try_catch.
    match goal with
    | |- fst (match ?body with _ => _ end) = _ =>
        now destruct body as [[[]|e] st']
    end.
  - unfold addSampleData.
    destruct_state st; run_service; intros H;
      try (exfalso; apply H; reflexivity);
      rewrite ?(order_by_desc_nonempty Item.created_at it H);
      run_service; split; reflexivity.
Qed.

(** X20.  On a ready service with an empty inventory [addSampleData]
    stores the four sample items with the quantities 25, 50, 8 and 0
    and appends two ledger entries, which refer, whatever ids the
    sequence hands out, to the first two of the new items; the entries
    are only logged, so those quantities are not moved by them.
    Calling it again adds nothing. *)
Theorem addSampleData_seeds_empty_inventory (clock : SampleClock) (st : State) :
  ready st = true ->
  item_rows st = [] ->
  exists st' headphones cable l1 l2,
    addSampleData clock st = (Ok tt, st') /\
    map Item.name (item_rows st')
      = ["Wireless Headphones"; "USB Cable"; "Phone Case"; "Laptop Stand"] /\
    map Item.quantity (item_rows st') = [25; 50; 8; 0] /\
    log_rows st' = log_rows st ++ [l1; l2] /\
    getItemById (StockLog.item_id l1) st' = (Ok (Some headphones), st') /\
    Item.name headphones = "Wireless Headphones" /\
    getItemById (StockLog.item_id l2) st' = (Ok (Some cable), st') /\
    Item.name cable = "USB Cable" /\
    (StockLog.type l1, StockLog.quantity l1) = (type_in, 10) /\
    (StockLog.type l2, StockLog.quantity l2) = (type_out, 5) /\
    (forall clock', addSampleData clock' st' = (Ok tt, st')).
Proof.
  intros Hready Hempty.
  destruct (ready_inv st Hready) as (its & iseq & logs & lseq & co & ->).
  revert Hempty. run_service. intros ->.
  unfold addSampleData, sampleItems, sampleMovements.
  run_service. cbn [for_each order_by_desc fold_right List.length Z.of_nat Z.ltb Z.compare].
  run_service. cbn [for_each app]. run_service. cbn [app at_index nth].
  do 5 eexists. split; [reflexivity|].
  do 2 (split; [reflexivity|]).
  split; [run_service; rewrite <- app_assoc; reflexivity|].
  run_service. cbn [find Item.id StockLog.item_id].
  rewrite Z.eqb_refl. do 2 (split; [reflexivity|]).
  match goal with
  | |- context [if ?n1 =? next_rowid Item.id ?t then _ else _] =>
      let Hlt := fresh "Hlt" in
      pose proof (next_rowid_above_seq Item.id t) as Hlt;
      cbn [seq] in Hlt;
      destruct (Z.eqb_spec n1 (next_rowid Item.id t)) as [E|_]; [lia|]
  end.
  rewrite Z.eqb_refl. do 4 (split; [reflexivity|]).
  intros clock'. unfold addSampleData. run_service.
  rewrite order_by_desc_nonempty by discriminate. reflexivity.
Qed.

(** ** The stock movement screen *)

Section StockMovementScreenFacts.

Variable trim : string -> string.
Variable parseInt : string -> option Z.

Let loadItem := StockMovementScreen.loadItem.
Let validateInput := StockMovementScreen.validateInput trim parseInt.
Let handleSubmit := StockMovementScreen.handleSubmit trim parseInt.

(** What an accepted input looks like. *)
Lemma validateInput_accepts (s : StockMovementScreen.t) :
  validateInput s = true ->
  exists n,
    parseInt (StockMovementScreen.quantity s) = Some n /\
    0 < n /\
    (forall i, StockMovementScreen.type s = type_out ->
               StockMovementScreen.item s = Some i -> n <= Item.quantity i).
Proof.
  unfold validateInput, StockMovementScreen.validateInput.
  destruct (String.eqb _ ""); [discriminate|].
  destruct (parseInt _) as [n|]; [|discriminate].
  destruct (Z.leb_spec n 0) as [|Hpos]; [discriminate|].
  intros H. exists n. split; [reflexivity|]. split; [exact Hpos|].
  intros i Hty Hi. rewrite Hi, Hty in H. simpl in H.
  destruct (Z.ltb_spec (Item.quantity i) n); [discriminate|lia].
Qed.

(** X21.  On a ready service, for an item that exists: [loadItem]
    puts the stored row into the screen and touches nothing; if
    [validateInput] then accepts the text, the text was a number
    [n > 0], [handleSubmit] reports success, the stored quantity is
    not negative after an ['out'] movement, and the one new ledger
    entry records [n] and the trimmed note.  When moreover [Q] and
    [Q + n] are safe integers (at most 2^53 - 1 in magnitude), the
    stored quantity becomes exactly [Q + n] for ['in'] and exactly
    [Q - n] for ['out']: nothing is rounded and nothing is clamped. *)
Theorem handleSubmit_accepted_input
    (st : State) (s : StockMovementScreen.t) (now : string) (i : Item.t) :
  ready st = true ->
  getItemById (StockMovementScreen.itemId s) st = (Ok (Some i), st) ->
  let s' := StockMovementScreen.setItem i s in
  loadItem s st = (Ok s', st) /\
  (validateInput s' = true ->
   exists n st' i' entry,
     parseInt (StockMovementScreen.quantity s) = Some n /\
     0 < n /\
     handleSubmit s' now st = (Ok StockMovementScreen.Success, st') /\
     getItemById (StockMovementScreen.itemId s) st' = (Ok (Some i'), st') /\
     (JS.safe (Item.quantity i) = true ->
      JS.safe (Item.quantity i + n) = true ->
      Item.quantity i' =
        match StockMovementScreen.type s with
        | type_in => Item.quantity i + n
        | type_out => Item.quantity i - n
        end) /\
     (StockMovementScreen.type s = type_out -> 0 <= Item.quantity i') /\
     log_rows st' = log_rows st ++ [entry] /\
     StockLog.quantity entry = n /\
     StockLog.type entry = StockMovementScreen.type s /\
     StockLog.note entry = trim (StockMovementScreen.note s)).
Proof.
  intros Hready Hget s'. split.
  - unfold loadItem, StockMovementScreen.loadItem, try_catch, bind.
    now rewrite Hget.
  - intros Hvalid.
    destruct (validateInput_accepts s' Hvalid) as (n & Hn & Hpos & Hout).
    unfold handleSubmit, StockMovementScreen.handleSubmit.
    fold validateInput. rewrite Hvalid, Hn. simpl JS.not. cbn [orb is_null].
    destruct s as [itemId ty item0 quantity note]. simpl in *.
    specialize (Hout i).
    destruct (ready_inv st Hready) as (its & iseq & logs & lseq & co & ->).
    assert (Hfind : find (fun x => Item.id x =? itemId) its = Some i)
      by (revert Hget; run_service; now intros [= ->]).
    unfold try_catch, bind.
    rewrite (processStockMovement_found _ _ _ _ _ _ ty n (trim note) now _ Hfind).
    exists n. do 3 eexists. split; [exact Hn|]. split; [exact Hpos|].
    split; [reflexivity|]. run_service.
    rewrite (find_update _ _ _ _ Hfind).
    split; [reflexivity|]. simpl.
    split.
    { intros HQ HQn. unfold JS.add, JS.sub. destruct ty.
      - now rewrite Double_round_exact.
      - specialize (Hout eq_refl eq_refl).
        rewrite Double_round_exact; [lia|].
        unfold JS.safe, JS.MAX_SAFE_INTEGER in *.
        apply andb_true_iff in HQ. destruct HQ as [Hlo Hhi].
        apply Z.leb_le in Hlo, Hhi.
        apply andb_true_iff. split; apply Z.leb_le; lia. }
    split; [intros ->; lia|].
    repeat split.
Qed.

(** X22.  [handleSubmit] never throws.  It sends nothing to the
    service, and leaves the state exactly as it was, when the quantity
    text is blank after trimming, is not a number, is zero or
    negative, asks to take out more than the loaded item holds, or
    when no item is loaded. *)
Theorem handleSubmit_rejected_input
    (st : State) (s : StockMovementScreen.t) (now : string) :
  (exists outcome, fst (handleSubmit s now st) = Ok outcome) /\
  (trim (StockMovementScreen.quantity s) = "" \/
   parseInt (StockMovementScreen.quantity s) = None \/
   (exists n, parseInt (StockMovementScreen.quantity s) = Some n /\ n <= 0) \/
   (exists n i, parseInt (StockMovementScreen.quantity s) = Some n /\
                StockMovementScreen.type s = type_out /\
                StockMovementScreen.item s = Some i /\
                Item.quantity i < n) \/
   StockMovementScreen.item s = None ->
   handleSubmit s now st = (Ok StockMovementScreen.NotSubmitted, st)).
Proof.
  unfold handleSubmit, StockMovementScreen.handleSubmit. split.
  - destruct (JS.not _ || is_null _); [now eexists|].
    unfold try_catch.
    match goal with
    | |- exists _, fst (match ?body with _ => _ end) = _ =>
        destruct body as [[o|e] st']; now eexists
    end.
  - intros H.
    assert (Hrej : StockMovementScreen.validateInput trim parseInt s = false
                   \/ StockMovementScreen.item s = None).
    { unfold StockMovementScreen.validateInput.
      destruct H as [H|[H|[(n & H & Hn)|[(n & i & H & Hty & Hi & Hq)|H]]]].
      - left. now rewrite H.
      - left. rewrite H. now destruct (String.eqb _ "").
      - left. rewrite H. destruct (String.eqb _ ""); [reflexivity|].
        now destruct (Z.leb_spec n 0); [|lia].
      - left. rewrite H, Hi, Hty. destruct (String.eqb _ ""); [reflexivity|].
        destruct (n <=? 0); [reflexivity|]. simpl.
        now destruct (Z.ltb_spec (Item.quantity i) n); [|lia].
      - now right. }
    destruct Hrej as [-> | ->]; [reflexivity|].
    now destruct (StockMovementScreen.validateInput trim parseInt s).
Qed.

End StockMovementScreenFacts.

(** ** Worked examples for the further properties *)

Lemma addItem_then_getItemById_witness :
  ready stocked = true /\
  exists id st',
    addItem widget stocked = (Ok id, st') /\
    getItemById id st'
      = (Ok (Some (Item.mk id "Widget" "W-001" 8 "A1-B2" ""
                     "2024-01-01T09:00:00.000Z")), st') /\
    item_seq stocked < id.
Proof.
  refine (conj eq_refl _).
  destruct (addItem_then_getItemById stocked widget eq_refl)
    as (id & st' & Hadd & Hget & _ & Hseq & _).
  exists id, st'. repeat split; assumption.
Defined.

Lemma primary_keys_are_unique_witness :
  reachable any_call moved /\
  NoDup (item_ids moved) /\ NoDup (log_ids moved).
Proof.
  assert (Hr : reachable any_call moved).
  { apply reachable_call; [|exact I].
    apply reachable_after_all; repeat constructor. }
  destruct (primary_keys_are_unique moved Hr) as (Hi & Hl & _).
  exact (conj Hr (conj Hi Hl)).
Defined.

Lemma deleted_id_is_not_reused_witness :
  reachable any_call stocked /\
  ready stocked = true /\
  In stocked_widget (item_rows stocked) /\
  exists st1 st2 id,
    deleteItem 1 stocked = (Ok tt, st1) /\
    addItem widget st1 = (Ok id, st2) /\
    1 < id /\
    getItemById 1 st2 = (Ok None, st2).
Proof.
  assert (Hr : reachable any_call stocked)
    by (apply reachable_after_all; repeat constructor).
  refine (conj Hr (conj eq_refl (conj (or_introl eq_refl) _))).
  exact (deleted_id_is_not_reused stocked stocked_widget widget Hr eq_refl
           (or_introl eq_refl)).
Defined.

Lemma getAllItems_sorted_complete_witness :
  ready stocked = true /\
  exists its,
    getAllItems stocked = (Ok its, stocked) /\
    Permutation its (item_rows stocked) /\
    StronglySorted (not_before Item.created_at) its.
Proof.
  exact (conj eq_refl (getAllItems_sorted_complete stocked eq_refl)).
Defined.

Lemma getStockLogsByItemId_sorted_complete_witness :
  ready moved = true /\
  exists logs,
    getStockLogsByItemId 1 moved = (Ok logs, moved) /\
    (forall l, In l logs <-> In l (log_rows moved) /\ StockLog.item_id l = 1) /\
    StronglySorted (not_before StockLog.timestamp) logs.
Proof.
  refine (conj eq_refl _).
  destruct (getStockLogsByItemId_sorted_complete moved 1 eq_refl)
    as (logs & Hrun & _ & Hin & Hsorted).
  exists logs. split; [exact Hrun|]. split; [exact Hin|exact Hsorted].
Defined.

Lemma updateItemQuantity_then_getItemById_witness :
  ready stocked = true /\
  getItemById 1 stocked = (Ok (Some stocked_widget), stocked) /\
  exists st',
    updateItemQuantity 1 30 stocked = (Ok tt, st') /\
    getItemById 1 st'
      = (Ok (Some (Item.set_quantity 30 stocked_widget)), st') /\
    log_rows st' = log_rows stocked.
Proof.
  refine (conj eq_refl (conj eq_refl _)).
  destruct (updateItemQuantity_then_getItemById stocked 1 30 stocked_widget
              eq_refl eq_refl)
    as (st' & Hrun & Hget & _ & _ & _ & Hlogs).
  exists st'. repeat split; assumption.
Defined.

Lemma deleteItem_then_getItemById_witness :
  ready stocked = true /\
  exists st',
    deleteItem 1 stocked = (Ok tt, st') /\
    getItemById 1 st' = (Ok None, st') /\
    deleteItem 1 st' = (Ok tt, st').
Proof.
  refine (conj eq_refl _).
  destruct (deleteItem_then_getItemById stocked 1 eq_refl)
    as (st' & Hrun & Hget & Hagain & _).
  exists st'. repeat split; assumption.
Defined.

Lemma reading_methods_change_no_row_witness :
  reads_only call_getAllItems = true /\
  item_rows (after call_getAllItems (start no_tables true))
    = item_rows (start no_tables true) /\
  log_rows (after call_getAllItems (start no_tables true))
    = log_rows (start no_tables true) /\
  item_seq (after call_getAllItems (start no_tables true))
    = item_seq (start no_tables true) /\
  log_seq (after call_getAllItems (start no_tables true))
    = log_seq (start no_tables true).
Proof.
  exact (conj eq_refl
           (reading_methods_change_no_row call_getAllItems
              (start no_tables true) eq_refl)).
Defined.

Lemma init_opens_or_resets_witness :
  isReady (start no_tables true) = false /\
  exists st',
    init (start no_tables true) = (Ok tt, st') /\ ready st' = true /\
    item_rows st' = item_rows (start no_tables true) /\
    log_rows st' = log_rows (start no_tables true) /\
    item_seq st' = item_seq (start no_tables true) /\
    log_seq st' = log_seq (start no_tables true).
Proof.
  exact (conj eq_refl (init_opens_or_resets (start no_tables true) eq_refl)).
Defined.

Lemma data_survives_restart_witness :
  ready moved = true /\
  fst (getItemById 1 (start (warehouse_db moved) true))
    = fst (getItemById 1 moved) /\
  ready (snd (getItemById 1 (start (warehouse_db moved) true))) = true.
Proof.
  refine (conj eq_refl _).
  destruct (data_survives_restart moved 1 eq_refl) as (_ & Hget & _ & Hready & _).
  exact (conj Hget Hready).
Defined.

Lemma methods_throw_when_store_cannot_open_witness :
  isReady (start no_tables false) = false /\
  can_open (start no_tables false) = false /\
  getAllItems (start no_tables false)
    = (Err OpenFailed, start no_tables false) /\
  addItem widget (start no_tables false)
    = (Err OpenFailed, start no_tables false).
Proof.
  refine (conj eq_refl (conj eq_refl _)).
  destruct (methods_throw_when_store_cannot_open (start no_tables false)
              widget damaged_entry 1 1 eq_refl eq_refl)
    as (Hadd & Hall & _).
  exact (conj Hall Hadd).
Defined.

Lemma processStockMovement_touches_one_quantity_witness :
  ready stocked = true /\
  getItemById 1 stocked = (Ok (Some stocked_widget), stocked) /\
  exists st' item',
    processStockMovement 1 type_in 4 "" "2024-02-01T10:00:00.000Z" stocked
      = (Ok tt, st') /\
    getItemById 1 st' = (Ok (Some item'), st') /\
    item' = Item.set_quantity (Item.quantity item') stocked_widget /\
    item_ids st' = item_ids stocked.
Proof.
  refine (conj eq_refl (conj eq_refl _)).
  destruct (processStockMovement_touches_one_quantity stocked 1 type_in 4 ""
              "2024-02-01T10:00:00.000Z" stocked_widget eq_refl eq_refl)
    as (st' & item' & Hrun & Hget & Hsame & _ & Hids & _).
  exists st', item'. repeat split; assumption.
Defined.

Lemma opposite_movements_compose_witness :
  ready stocked = true /\
  getItemById 1 stocked = (Ok (Some stocked_widget), stocked) /\
  JS.safe (Z.abs (Item.quantity stocked_widget) + Z.abs 20) = true /\
  exists st1 st2 item2,
    processStockMovement 1 type_out 20 "" "2024-02-01T10:00:00.000Z" stocked
      = (Ok tt, st1) /\
    processStockMovement 1 type_in 20 "" "2024-02-02T10:00:00.000Z" st1
      = (Ok tt, st2) /\
    getItemById 1 st2 = (Ok (Some item2), st2) /\
    Item.quantity item2 = 20.
Proof.
  refine (conj eq_refl (conj eq_refl (conj eq_refl _))).
  destruct (opposite_movements_compose stocked 1 20 ""
              "2024-02-01T10:00:00.000Z" "" "2024-02-02T10:00:00.000Z"
              stocked_widget eq_refl eq_refl eq_refl)
    as (_ & st1 & st2 & item2 & H1 & H2 & Hget & Hq & _).
  exists st1, st2, item2. repeat split; assumption.
Defined.

Lemma getDashboardStats_after_addItem_witness :
  ready stocked = true /\
  total_magnitude (item_rows stocked) + Z.abs (Item.quantity widget)
    <= JS.MAX_SAFE_INTEGER /\
  exists stats id st' stats',
    getDashboardStats stocked = (Ok stats, stocked) /\
    addItem widget stocked = (Ok id, st') /\
    getDashboardStats st' = (Ok stats', st') /\
    totalItems stats' = totalItems stats + 1 /\
    totalQuantity stats' = totalQuantity stats + Item.quantity widget.
Proof.
  assert (Hb : total_magnitude (item_rows stocked) + Z.abs (Item.quantity widget)
               <= JS.MAX_SAFE_INTEGER) by (vm_compute; discriminate).
  exact (conj eq_refl
           (conj Hb (getDashboardStats_after_addItem stocked widget eq_refl Hb))).
Defined.

Lemma getDashboardStats_after_processStockMovement_witness :
  reachable any_call stocked /\
  ready stocked = true /\
  getItemById 1 stocked = (Ok (Some stocked_widget), stocked) /\
  total_magnitude (item_rows stocked) + Z.abs 20 <= JS.MAX_SAFE_INTEGER /\
  exists stats st' stats',
    getDashboardStats stocked = (Ok stats, stocked) /\
    processStockMovement 1 type_out 20 "" "2024-02-01T10:00:00.000Z" stocked
      = (Ok tt, st') /\
    getDashboardStats st' = (Ok stats', st') /\
    totalQuantity stats' = totalQuantity stats - Z.min 8 20.
Proof.
  assert (Hr : reachable any_call stocked)
    by (apply reachable_after_all; repeat constructor).
  assert (Hb : total_magnitude (item_rows stocked) + Z.abs 20
               <= JS.MAX_SAFE_INTEGER) by (vm_compute; discriminate).
  refine (conj Hr (conj eq_refl (conj eq_refl (conj Hb _)))).
  destruct (getDashboardStats_after_processStockMovement stocked 1 type_out 20
              "" "2024-02-01T10:00:00.000Z" stocked_widget Hr eq_refl eq_refl Hb)
    as (stats & st' & stats' & H1 & H2 & H3 & _ & H4).
  exists stats, st', stats'. repeat split; assumption.
Defined.

Lemma getDashboardStats_recentLogs_witness :
  ready moved = true /\
  total_magnitude (item_rows moved) <= JS.MAX_SAFE_INTEGER /\
  exists stats,
    getDashboardStats moved = (Ok stats, moved) /\
    (List.length (recentLogs stats) <= 5)%nat.
Proof.
  assert (Hb : total_magnitude (item_rows moved) <= JS.MAX_SAFE_INTEGER)
    by (vm_compute; discriminate).
  refine (conj eq_refl (conj Hb _)).
  destruct (getDashboardStats_recentLogs moved eq_refl) as (Hsound & Hreturns).
  destruct (Hreturns Hb) as (stats & Hrun).
  destruct (Hsound stats moved Hrun) as (_ & Hlen & _).
  exists stats. split; assumption.
Defined.

Lemma addStockLog_appends_only_witness :
  ready stocked = true /\
  exists id st',
    addStockLog damaged_entry stocked = (Ok id, st') /\
    log_rows st' = log_rows stocked ++ [damaged_entry] /\
    item_rows st' = item_rows stocked.
Proof.
  refine (conj eq_refl _).
  destruct (addStockLog_appends_only stocked damaged_entry eq_refl)
    as (id & st' & Hrun & Hrows & _ & Hitems & _).
  assert (E : (Ok id, st') = (Ok 1, after (call_addStockLog damaged_entry) stocked))
    by (rewrite <- Hrun; reflexivity).
  injection E as -> ->.
  exists 1, (after (call_addStockLog damaged_entry) stocked).
  repeat split.
Defined.

Lemma addSampleData_skips_existing_data_witness :
  item_rows stocked <> [] /\
  fst (addSampleData sample_clock stocked) = Ok tt /\
  item_rows (snd (addSampleData sample_clock stocked)) = item_rows stocked /\
  log_rows (snd (addSampleData sample_clock stocked)) = log_rows stocked.
Proof.
  assert (Hne : item_rows stocked <> []) by (vm_compute; discriminate).
  destruct (addSampleData_skips_existing_data sample_clock stocked) as (Hok & Hsame).
  exact (conj Hne (conj Hok (Hsame Hne))).
Defined.

Lemma addSampleData_seeds_empty_inventory_witness :
  ready opened = true /\
  item_rows opened = [] /\
  exists st',
    addSampleData sample_clock opened = (Ok tt, st') /\
    map Item.quantity (item_rows st') = [25; 50; 8; 0] /\
    List.length (log_rows st') = 2%nat /\
    addSampleData sample_clock st' = (Ok tt, st').
Proof.
  refine (conj eq_refl (conj eq_refl _)).
  destruct (addSampleData_seeds_empty_inventory sample_clock opened
              eq_refl eq_refl)
    as (st' & h & c & l1 & l2 & Hrun & _ & Hq & Hlogs & _ & _ & _ & _ & _ & _
        & Hagain).
  exists st'. split; [exact Hrun|]. split; [exact Hq|].
  split; [now rewrite Hlogs|apply Hagain].
Defined.

Lemma handleSubmit_accepted_input_witness :
  ready stocked = true /\
  getItemById (StockMovementScreen.itemId taking_five) stocked
    = (Ok (Some stocked_widget), stocked) /\
  StockMovementScreen.validateInput same_text parse_five
    (StockMovementScreen.setItem stocked_widget taking_five) = true /\
  JS.safe (Item.quantity stocked_widget) = true /\
  JS.safe (Item.quantity stocked_widget + 5) = true /\
  exists st' i',
    StockMovementScreen.handleSubmit same_text parse_five
      (StockMovementScreen.setItem stocked_widget taking_five)
      "2024-02-01T10:00:00.000Z" stocked
      = (Ok StockMovementScreen.Success, st') /\
    getItemById 1 st' = (Ok (Some i'), st') /\
    Item.quantity i' = 8 - 5.
Proof.
  refine (conj eq_refl (conj eq_refl (conj eq_refl (conj eq_refl
            (conj eq_refl _))))).
  destruct (handleSubmit_accepted_input same_text parse_five stocked taking_five
              "2024-02-01T10:00:00.000Z" stocked_widget eq_refl eq_refl)
    as (_ & Hsubmit).
  destruct (Hsubmit eq_refl)
    as (n & st' & i' & entry & Hn & _ & Hrun & Hget & Hq & _).
  injection Hn as <-.
  exists st', i'. split; [exact Hrun|]. split; [exact Hget|].
  exact (Hq eq_refl eq_refl).
Defined.

Lemma handleSubmit_rejected_input_witness :
  parse_five
    (StockMovementScreen.quantity
       (StockMovementScreen.mk 1 type_out (Some stocked_widget) "five" ""))
    = None /\
  StockMovementScreen.handleSubmit same_text parse_five
    (StockMovementScreen.mk 1 type_out (Some stocked_widget) "five" "")
    "2024-02-01T10:00:00.000Z" stocked
    = (Ok StockMovementScreen.NotSubmitted, stocked).
Proof.
  refine (conj eq_refl _).
  destruct (handleSubmit_rejected_input same_text parse_five stocked
              (StockMovementScreen.mk 1 type_out (Some stocked_widget) "five" "")
              "2024-02-01T10:00:00.000Z")
    as (_ & Hrej).
  apply Hrej. right. left. reflexivity.
Defined.
